(** * Confidence estimation from review signals

    A shallow embedding of the statistical core of the browser extension
    [confidence_interval]: the aggregate-count estimator of [confInt.js] and
    the two variants of the star-distribution estimator.

    JavaScript numbers are kept abstract behind the class [Number], which
    lists exactly the operations the scripts use.  The class has two
    instances:
    - [R_Number], exact real arithmetic;
    - [F_Number], IEEE-754 binary64, the representation JavaScript uses.
    What depends on comparisons and control flow only is proved for every
    number type, binary64 included.  What is proved over the reals is a
    property of the formulas the code evaluates, and says so: where rounding
    makes the running code depart from it, the departure is exhibited by
    running the same definitions in binary64.  Numbers read from text are
    rounded to binary64 as the runtime does. *)

From Stdlib Require Import Floats.
From Stdlib Require Import Reals ZArith QArith Qreduction List String Ascii Bool Lia Lra.
From Stdlib Require DecimalString DecimalNat.
Import ListNotations.

Set Implicit Arguments.

(** ** Numbers *)

Declare Scope num_scope.
Delimit Scope num_scope with num.

Class Number (num : Type) : Type := {
  of_Z : Z -> num;
  num_add : num -> num -> num;
  num_sub : num -> num -> num;
  num_mul : num -> num -> num;
  num_div : num -> num -> num;
  Math_sqrt : num -> num;
  Math_min : num -> num -> num;
  Math_max : num -> num -> num;
  num_eqb : num -> num -> bool;
  num_ltb : num -> num -> bool;
  num_leb : num -> num -> bool
}.

Infix "+" := num_add : num_scope.
Infix "-" := num_sub : num_scope.
Infix "*" := num_mul : num_scope.
Infix "/" := num_div : num_scope.
Infix "===" := num_eqb (at level 70, no associativity) : num_scope.
Infix "<?" := num_ltb : num_scope.
Infix "<=?" := num_leb : num_scope.

Section Literals.
Context {num : Type} `{Number num}.

(** Integer-valued numbers: loop indices, counts, integer literals. *)
Definition of_nat (n : nat) : num := of_Z (Z.of_nat n).

(** A decimal literal such as [1.96], written as the rational [196 # 100]. *)
Definition lit (q : Q) : num :=
  match Qden q with
  | 1%positive => of_Z (Qnum q)
  | d => (of_Z (Qnum q) / of_Z (Zpos d))%num
  end.

(** [Math.pow(x, n)] for a literal natural exponent. *)
Fixpoint Math_pow (x : num) (n : nat) : num :=
  match n with
  | O => of_Z 1
  | S O => x
  | S m => (x * Math_pow x m)%num
  end.
End Literals.

(** Exact arithmetic. *)
#[export] Instance R_Number : Number R := {
  of_Z := IZR;
  num_add := Rplus;
  num_sub := Rminus;
  num_mul := Rmult;
  num_div := Rdiv;
  Math_sqrt := sqrt;
  Math_min := Rmin;
  Math_max := Rmax;
  num_eqb := fun a b => if Req_dec_T a b then true else false;
  num_ltb := fun a b => if Rlt_dec a b then true else false;
  num_leb := fun a b => if Rle_dec a b then true else false
}.

(** Binary64 arithmetic.  [Math.min] and [Math.max] return NaN as soon as one
    argument is NaN; integers are converted exactly up to [2^53]. *)
Definition float_of_Z (z : Z) : float :=
  if (z <? 0)%Z
  then PrimFloat.opp (PrimFloat.of_uint63 (Uint63.of_Z (- z)))
  else PrimFloat.of_uint63 (Uint63.of_Z z).

Definition float_min (a b : float) : float :=
  if PrimFloat.is_nan a then a
  else if PrimFloat.is_nan b then b
  else if PrimFloat.ltb b a then b else a.

Definition float_max (a b : float) : float :=
  if PrimFloat.is_nan a then a
  else if PrimFloat.is_nan b then b
  else if PrimFloat.ltb a b then b else a.

#[export] Instance F_Number : Number float := {
  of_Z := float_of_Z;
  num_add := PrimFloat.add;
  num_sub := PrimFloat.sub;
  num_mul := PrimFloat.mul;
  num_div := PrimFloat.div;
  Math_sqrt := PrimFloat.sqrt;
  Math_min := float_min;
  Math_max := float_max;
  num_eqb := PrimFloat.eqb;
  num_ltb := PrimFloat.ltb;
  num_leb := PrimFloat.leb
}.

(** [Math.round], used by the content script only: the integer nearest to
    [x], a tie going upwards, that is [floor(x + 1/2)] computed exactly. *)
Class Rounding (num : Type) : Type := {
  Math_round : num -> num
}.

#[export] Instance R_Rounding : Rounding R := {
  Math_round := fun x => IZR (Int_part (x + / 2))
}.

(** In binary64 a finite value is [(-1)^s * m * 2^e]: it is an integer
    already when [0 <= e], and otherwise the floor of [x + 1/2] is taken on
    integers.  Zero, NaN and the infinities are returned unchanged. *)
Definition float_round (x : float) : float :=
  match Prim2SF x with
  | S754_finite s m e =>
      if (0 <=? e)%Z then x
      else
        let twice := (if s then - (2 * Zpos m) else 2 * Zpos m)%Z in
        float_of_Z ((twice + Z.shiftl 1 (- e)) / Z.shiftl 1 (1 - e))%Z
  | _ => x
  end.

#[export] Instance F_Rounding : Rounding float := {
  Math_round := float_round
}.

(** ** The parts of the JavaScript runtime the scripts rely on *)

Module JS.

(** Exceptions: the only one the modelled code can raise is the
    [TypeError] of a property read on [undefined] or [null]. *)
Inductive exn : Type := TypeError.

Inductive completion (A : Type) : Type :=
| Normal (a : A)
| Throw (e : exn).
Arguments Normal {A} a.
Arguments Throw {A} e.

Definition bind {A B : Type} (c : completion A) (k : A -> completion B)
  : completion B :=
  match c with
  | Normal a => k a
  | Throw e => Throw e
  end.

(** [try { body } catch (error) { handler }] *)
Definition try_catch {A : Type} (body : completion A) (handler : exn -> A) : A :=
  match body with
  | Normal a => a
  | Throw e => handler e
  end.

(** Where the code treats [null] and [undefined] alike, a value that may be
    either is an [option]; reading a property of it throws when it is
    absent. *)
Definition deref {A : Type} (v : option A) : completion A :=
  match v with
  | Some a => Normal a
  | None => Throw TypeError
  end.

(** Where the code tells the two apart, as the handlers do when they test
    [reviewsCount !== null], the three cases are kept. *)
Inductive nullable (A : Type) : Type :=
| Undefined
| Null
| Value (a : A).
Arguments Undefined {A}.
Arguments Null {A}.
Arguments Value {A} a.

(** [v !== null]: [undefined] is not [null]. *)
Definition not_null {A : Type} (v : nullable A) : bool :=
  match v with
  | Null => false
  | _ => true
  end.

(** A property read [v.p], such as [reviewsCount.toLocaleString]: it throws
    on [undefined] as on [null]. *)
Definition read {A : Type} (v : nullable A) : completion A :=
  match v with
  | Value a => Normal a
  | _ => Throw TypeError
  end.

(** Truthiness of a possibly absent string: absent and empty are falsy. *)
Definition truthy_string (v : option string) : bool :=
  match v with
  | Some s => negb (String.eqb s EmptyString)
  | None => false
  end.

(** [!v] for a possibly absent array: an array is truthy, [null] and
    [undefined] are not. *)
Definition is_absent {A : Type} (v : option A) : bool :=
  match v with
  | Some _ => false
  | None => true
  end.

(** Texts.  A [string] holds an ASCII text as it is and any other text in
    its UTF-8 encoding, where the bytes below 128 are exactly the ASCII
    characters of the text. *)
Definition is_ascii_char (c : ascii) : bool := (nat_of_ascii c <? 128)%nat.

Fixpoint is_ascii (s : string) : bool :=
  match s with
  | EmptyString => true
  | String c s' => is_ascii_char c && is_ascii s'
  end.

(** Lower case within ASCII: the 26 capital letters go to the small ones,
    every other character stays. *)
Definition lower_ascii (c : ascii) : ascii :=
  let n := nat_of_ascii c in
  if (65 <=? n)%nat && (n <=? 90)%nat then ascii_of_nat (n + 32) else c.

Fixpoint ascii_toLowerCase (s : string) : string :=
  match s with
  | EmptyString => EmptyString
  | String c s' => String (lower_ascii c) (ascii_toLowerCase s')
  end.

(** [String.prototype.toLowerCase] applies the Unicode case mapping (the
    Kelvin sign U+212A becomes [k], for one).  That mapping is a parameter of
    the development: all that is fixed of it is what it does to ASCII text.
    What is proved about the resolver therefore holds for the mapping the
    browser applies, whatever the texts. *)
Class Runtime : Type := {
  toLowerCase : string -> string;
  toLowerCase_ascii :
    forall s : string, is_ascii s = true -> toLowerCase s = ascii_toLowerCase s
}.

(** The mapping that leaves all other bytes alone; the examples run with
    it, on ASCII texts. *)
#[global] Instance ASCII_only : Runtime := {|
  toLowerCase := ascii_toLowerCase;
  toLowerCase_ascii := fun _ _ => eq_refl
|}.

(** [s.includes(t)]: [t] occurs in [s] as a contiguous substring. *)
Fixpoint includes (s t : string) : bool :=
  String.prefix t s ||
  match s with
  | EmptyString => false
  | String _ s' => includes s' t
  end.

(** Objects used as tables: own string keys are enumerated by [for ... in]
    in insertion order. *)
Definition object (A : Type) : Type := list (string * A).

Definition keys {A : Type} (o : object A) : list string := map fst o.

Fixpoint get {A : Type} (o : object A) (key : string) : option A :=
  match o with
  | [] => None
  | (k, v) :: o' => if String.eqb k key then Some v else get o' key
  end.

End JS.

Notation "x <- c ;; k" := (JS.bind c (fun x => k))
  (at level 61, c at next level, right associativity).

(** ** Text scanning: what [parseInt] and the two regular expressions do *)

Module JSText.

(** The result of [parseInt]: NaN, an integer, or an infinity.  A number of
    JavaScript is a binary64, so the integer is one that binary64
    represents. *)
Inductive parsed : Type :=
| NaN
| Int (z : Z)
| Infinity (negative : bool).

(** The integer nearest to [a / b], for [0 <= a] and [0 < b]; of two that
    are equally near, the even one. *)
Definition round_half_even (a b : Z) : Z :=
  let q := (a / b)%Z in
  let r := (a mod b)%Z in
  if (b <? 2 * r)%Z || ((2 * r =? b)%Z && Z.odd q) then (q + 1)%Z else q.

(** Binary64 keeps 53 significant bits: a non-negative integer of at most 53
    bits is represented as it is, a longer one is rounded to 53 bits. *)
Definition round_to_binary64 (n : Z) : Z :=
  let e := (Z.log2 n - 52)%Z in
  if (e <=? 0)%Z then n else (round_half_even n (2 ^ e) * 2 ^ e)%Z.

(** What rounds to [2^1024] or more is beyond the finite values. *)
Definition overflows (n : Z) : bool := (2 ^ 1024 <=? n)%Z.

(** The number for the integer [n >= 0] read after an optional sign. *)
Definition number_of_Z (negative : bool) (n : Z) : parsed :=
  let m := round_to_binary64 n in
  if overflows m then Infinity negative
  else Int (if negative then (- m)%Z else m).

Definition is_digit (c : ascii) : bool :=
  let n := nat_of_ascii c in (48 <=? n)%nat && (n <=? 57)%nat.

Definition digit_value (c : ascii) : Z := Z.of_nat (nat_of_ascii c - 48).

(** ASCII white space. *)
Definition is_space (c : ascii) : bool :=
  let n := nat_of_ascii c in
  ((9 <=? n)%nat && (n <=? 13)%nat) || (n =? 32)%nat.

(** White space beyond ASCII, by the bytes of its UTF-8 encoding: the
    no-break space U+00A0, and U+1680, U+2000 to U+200A, U+2028, U+2029,
    U+202F, U+205F, U+3000 and U+FEFF. *)
Definition is_space2 (a b : ascii) : bool :=
  (nat_of_ascii a =? 194)%nat && (nat_of_ascii b =? 160)%nat.

Definition is_space3 (a b c : ascii) : bool :=
  let a := nat_of_ascii a in
  let b := nat_of_ascii b in
  let c := nat_of_ascii c in
  ((a =? 225) && (b =? 154) && (c =? 128)
   || (a =? 226) && (b =? 128)
      && ((128 <=? c) && (c <=? 138) || (c =? 168) || (c =? 169) || (c =? 175))
   || (a =? 226) && (b =? 129) && (c =? 159)
   || (a =? 227) && (b =? 128) && (c =? 128)
   || (a =? 239) && (b =? 187) && (c =? 191))%nat.

(** One white-space character at the start of [s], as [\s] matches it and
    [parseInt] skips it: what follows it in [s]. *)
Definition white_space_at (s : string) : option string :=
  match s with
  | String a s1 =>
      if is_space a then Some s1
      else
        match s1 with
        | String b s2 =>
            if is_space2 a b then Some s2
            else
              match s2 with
              | String c s3 => if is_space3 a b c then Some s3 else None
              | EmptyString => None
              end
        | EmptyString => None
        end
  | EmptyString => None
  end.

Fixpoint skip_white_space_steps (steps : nat) (s : string) : string :=
  match steps with
  | O => s
  | S steps' =>
      match white_space_at s with
      | Some rest => skip_white_space_steps steps' rest
      | None => s
      end
  end.

(** [s] without the white space it starts with; there cannot be more
    white-space characters than bytes. *)
Definition skip_white_space (s : string) : string :=
  skip_white_space_steps (String.length s) s.

(** The character class [[\d,]]. *)
Definition digit_or_comma (c : ascii) : bool :=
  is_digit c || Ascii.eqb c ","%char.

(** The longest prefix of [s] whose characters satisfy [p]. *)
Fixpoint take_while (p : ascii -> bool) (s : string) : string :=
  match s with
  | EmptyString => EmptyString
  | String c s' => if p c then String c (take_while p s') else EmptyString
  end.

Fixpoint drop_while (p : ascii -> bool) (s : string) : string :=
  match s with
  | EmptyString => EmptyString
  | String c s' => if p c then drop_while p s' else s
  end.

(** [text.match(/([\d,]+)/)]: the capture of the first match, that is the
    leftmost maximal run of digits and commas; [None] stands for [null]. *)
Fixpoint match_digits_commas (text : string) : option string :=
  match text with
  | EmptyString => None
  | String c text' =>
      if digit_or_comma c then Some (take_while digit_or_comma text)
      else match_digits_commas text'
  end.

(** [s.replace(/,/g, '')] *)
Fixpoint remove_commas (s : string) : string :=
  match s with
  | EmptyString => EmptyString
  | String c s' =>
      if Ascii.eqb c ","%char then remove_commas s'
      else String c (remove_commas s')
  end.

(** The value of a string of decimal digits, read from the left. *)
Fixpoint digits_value (acc : Z) (digits : string) : Z :=
  match digits with
  | EmptyString => acc
  | String c digits' => digits_value (10 * acc + digit_value c) digits'
  end.

(** [parseInt(s, 10)]: leading white space is skipped, an optional sign is
    read, then the longest run of decimal digits; NaN without a digit,
    otherwise the binary64 nearest to the integer the digits write. *)
Definition parseInt (s : string) : parsed :=
  let s := skip_white_space s in
  let '(negative, s) :=
    match s with
    | String c s' =>
        if Ascii.eqb c "-"%char then (true, s')
        else if Ascii.eqb c "+"%char then (false, s')
        else (false, s)
    | EmptyString => (false, s)
    end in
  let digits := take_while is_digit s in
  match digits with
  | EmptyString => NaN
  | _ => number_of_Z negative (digits_value 0 digits)
  end.

(** Every character of [s] satisfies [p]. *)
Fixpoint all_chars (p : ascii -> bool) (s : string) : bool :=
  match s with
  | EmptyString => true
  | String c s' => p c && all_chars p s'
  end.

(** The result of [parseFloat] on the strings the scripts pass to it: NaN,
    the exact value of a finite binary64, or infinity. *)
Inductive parsed_decimal : Type :=
| NaNd
| Dec (q : Q)
| Infinityd.

(** The binary64 nearest to [n / d], for [0 <= n].  With [e] the exponent
    of the leading bit, [2^e <= n / d < 2^(e+1)], the value is rounded to a
    multiple of [2^u], where [u = e - 52] for a normal number and [-1074]
    in the subnormal range. *)
Definition nearest_binary64 (n : Z) (d : positive) : parsed_decimal :=
  if (n =? 0)%Z then Dec 0 else
  let e0 := (Z.log2 n - Z.log2 (Zpos d))%Z in
  let reaches :=
    if (0 <=? e0)%Z then (Zpos d * 2 ^ e0 <=? n)%Z
    else (Zpos d <=? n * 2 ^ (- e0))%Z in
  let e := if reaches then e0 else (e0 - 1)%Z in
  let u := Z.max (e - 52) (-1074) in
  if (0 <=? u)%Z then
    let m := round_half_even n (Zpos d * 2 ^ u) in
    if overflows (m * 2 ^ u) then Infinityd else Dec ((m * 2 ^ u) # 1)
  else
    let m := round_half_even (n * 2 ^ (- u)) (Zpos d) in
    Dec (Qred (m # Z.to_pos (2 ^ (- u)))).

(** The character class [[\d.]]. *)
Definition digit_or_dot (c : ascii) : bool :=
  is_digit c || Ascii.eqb c "."%char.

(** [rest] such that [s = prefix ++ rest], if there is one. *)
Fixpoint strip_prefix (prefix s : string) : option string :=
  match prefix with
  | EmptyString => Some s
  | String p prefix' =>
      match s with
      | EmptyString => None
      | String c s' => if Ascii.eqb p c then strip_prefix prefix' s' else None
      end
  end.

(** An attempt to match [/width:\s*([\d.]+)%/] at the start of [s]: the
    white space and the run of digits and dots are both taken as long as
    they go, since what must follow each of them cannot be part of it. *)
Definition width_at (s : string) : option string :=
  match strip_prefix "width:" s with
  | None => None
  | Some s =>
      let s := skip_white_space s in
      let run := take_while digit_or_dot s in
      match run, drop_while digit_or_dot s with
      | String _ _, String c _ => if Ascii.eqb c "%"%char then Some run else None
      | _, _ => None
      end
  end.

(** [styleText.match(/width:\s*([\d.]+)%/)]: the capture of the leftmost
    match; [None] stands for [null]. *)
Fixpoint match_width (styleText : string) : option string :=
  match styleText with
  | EmptyString => None
  | String _ rest =>
      match width_at styleText with
      | Some capture => Some capture
      | None => match_width rest
      end
  end.

Fixpoint pow10 (n : nat) : positive :=
  match n with
  | O => 1
  | S n' => 10 * pow10 n'
  end.

(** [parseFloat] on a string of digits and dots, the only strings it is
    called on: the longest prefix of the form digits, optionally a dot and
    more digits, is read; NaN when that prefix has no digit, otherwise the
    binary64 nearest to the decimal number read. *)
Definition parseFloat (s : string) : parsed_decimal :=
  let whole := take_while is_digit s in
  let fraction :=
    match drop_while is_digit s with
    | String c rest => if Ascii.eqb c "."%char then take_while is_digit rest else EmptyString
    | EmptyString => EmptyString
    end in
  match (whole ++ fraction)%string with
  | EmptyString => NaNd
  | digits => nearest_binary64 (digits_value 0 digits) (pow10 (String.length fraction))
  end.

End JSText.

(** ** [confInt.js]: the aggregate-count estimator *)

Module ConfInt.
Section WithNumber.
Context {num : Type} `{Number num} `{JS.Runtime}.
Local Open Scope num_scope.
Local Open Scope string_scope.

Record CategoryProfile : Type := {
  maxReviews : num;
  weight : num;
  baseUncertaintyFactor : num
}.

(** What the injected content script hands back. *)
Record ExtractedData : Type := {
  placeName : option string;
  reviewsCount : JS.nullable num;
  category : string
}.

Definition categoryConfigs : JS.object CategoryProfile := [
  ("Restaurant", {| maxReviews := lit 5000; weight := lit 0.85; baseUncertaintyFactor := lit 0.15 |});
  ("Cafe", {| maxReviews := lit 3000; weight := lit 0.80; baseUncertaintyFactor := lit 0.20 |});
  ("Store", {| maxReviews := lit 2000; weight := lit 0.70; baseUncertaintyFactor := lit 0.30 |});
  ("Park", {| maxReviews := lit 500; weight := lit 0.40; baseUncertaintyFactor := lit 0.60 |});
  ("Hotel", {| maxReviews := lit 10000; weight := lit 0.90; baseUncertaintyFactor := lit 0.10 |});
  ("Museum", {| maxReviews := lit 1500; weight := lit 0.65; baseUncertaintyFactor := lit 0.35 |});
  ("Bank", {| maxReviews := lit 300; weight := lit 0.30; baseUncertaintyFactor := lit 0.70 |});
  ("Hospital", {| maxReviews := lit 2000; weight := lit 0.50; baseUncertaintyFactor := lit 0.50 |});
  ("School", {| maxReviews := lit 1000; weight := lit 0.45; baseUncertaintyFactor := lit 0.55 |});
  ("Generic", {| maxReviews := lit 1000; weight := lit 0.55; baseUncertaintyFactor := lit 0.45 |})
].

(** The test of the keyword-matching loop for one key. *)
Definition key_matches (lowerCategory placeName key : string) : bool :=
  JS.includes lowerCategory (JS.toLowerCase key)
  || JS.includes (JS.toLowerCase placeName) (JS.toLowerCase key).

(** [for (const key in categoryConfigs) { if (...) { ...; break; } }]
    threading the two variables the loop assigns. *)
Fixpoint keyword_loop (remaining : list string) (lowerCategory placeName : string)
    (selectedCategoryConfig : option CategoryProfile) (matchedCategoryName : string)
    : option CategoryProfile * string :=
  match remaining with
  | [] => (selectedCategoryConfig, matchedCategoryName)
  | key :: rest =>
      if key_matches lowerCategory placeName key
      then (JS.get categoryConfigs key, key)
      else keyword_loop rest lowerCategory placeName
             selectedCategoryConfig matchedCategoryName
  end.

(** Lines 46-57: the pair [(selectedCategoryConfig, matchedCategoryName)]
    after the loop.  A missing table entry would be [undefined], hence the
    [option]. *)
Definition selectedCategoryConfig (category placeName : string)
    : option CategoryProfile * string :=
  let lowerCategory := JS.toLowerCase category in
  keyword_loop (JS.keys categoryConfigs) lowerCategory placeName
    (JS.get categoryConfigs "Generic") "Generic".

(** Lines 61-78, one definition per [const]. *)
Definition normalizedReviews (cfg : CategoryProfile) (reviewsCount : num) : num :=
  Math_min reviewsCount (maxReviews cfg).

Definition mu_confidence_score (cfg : CategoryProfile) (reviewsCount : num) : num :=
  (normalizedReviews cfg reviewsCount / maxReviews cfg) * weight cfg * lit 100.

Definition effectiveSampleSize (reviewsCount : num) : num :=
  Math_sqrt (reviewsCount + lit 1).

Definition baseErrorMagnitude : num := lit 20.

Definition se (cfg : CategoryProfile) (reviewsCount : num) : num :=
  (baseErrorMagnitude * baseUncertaintyFactor cfg) / effectiveSampleSize reviewsCount.

Definition k_z_score : num := lit 1.96.

Definition lowerBound (cfg : CategoryProfile) (reviewsCount : num) : num :=
  Math_max (lit 0) (mu_confidence_score cfg reviewsCount - se cfg reviewsCount * k_z_score).

Definition upperBound (cfg : CategoryProfile) (reviewsCount : num) : num :=
  Math_min (lit 100) (mu_confidence_score cfg reviewsCount + se cfg reviewsCount * k_z_score).

(** What ends up in the result container. *)
Record Shown : Type := {
  shown_place : string;
  shown_category : string;
  shown_match : string;
  shown_reviews : num;
  shown_confidence : num;
  shown_lower : num;
  shown_upper : num
}.

Inductive Outcome : Type :=
| Result (r : Shown)
| NoPlaceName
| InsufficientData
| UnexpectedError.

(** The click handler from the point where the content script has
    answered.  The guard lets an [undefined] review count through: lines
    61-78 then compute NaN without throwing, and the template throws at
    [reviewsCount.toLocaleString()] before anything is shown, which is where
    the count is read here. *)
Definition checkConfidence (extractedData : option ExtractedData) : Outcome :=
  JS.try_catch
    (match extractedData with
     | Some d =>
         if JS.truthy_string (placeName d) && JS.not_null (reviewsCount d)
         then
           name <- JS.deref (placeName d) ;;
           count <- JS.read (reviewsCount d) ;;
           let '(selected, matchedCategoryName) :=
             selectedCategoryConfig (category d) name in
           cfg <- JS.deref selected ;;
           JS.Normal (Result {|
             shown_place := name;
             shown_category := category d;
             shown_match := matchedCategoryName;
             shown_reviews := count;
             shown_confidence := mu_confidence_score cfg count;
             shown_lower := lowerBound cfg count;
             shown_upper := upperBound cfg count |})
         else if negb (JS.truthy_string (placeName d))
         then JS.Normal NoPlaceName
         else JS.Normal InsufficientData
     | None => JS.Normal InsufficientData
     end)
    (fun _ => UnexpectedError).

(** [getConfidenceColor]: the colour of the score, as a hex code. *)
Definition getConfidenceColor (confidence : num) : string :=
  if (lit 80 <=? confidence)%num then "#38a169"
  else if (lit 50 <=? confidence)%num then "#d69e2e"
  else "#e53e3e".

(** [extractGoogleMapsPlaceData] from line 185 on, as a function of what
    the page queries above it have left in [placeName], [reviewsCount] and
    [category]: a missing review count becomes 0. *)
Definition extractGoogleMapsPlaceData (placeName : option string)
    (reviewsCount : option num) (category : string) : ExtractedData :=
  let reviewsCount :=
    match reviewsCount with
    | None => lit 0
    | Some count => count
    end in
  {| placeName := placeName;
     reviewsCount := JS.Value reviewsCount;
     category := category |}.

End WithNumber.
Arguments CategoryProfile num : clear implicits.
Arguments ExtractedData num : clear implicits.
Arguments Shown num : clear implicits.
Arguments Outcome num : clear implicits.
End ConfInt.

(** ** [part_000]: the star-distribution estimator *)

Module Part000.
Section WithNumber.
Context {num : Type} `{Number num}.
Local Open Scope num_scope.

(** [arr.reduce((sum, current) => sum + current, 0)] *)
Definition sumArray (arr : list num) : num :=
  fold_left (fun sum current => sum + current) arr (lit 0).

(** [revs[i]]; the callers below only index after checking
    [revs.length === 5], with [i] in [0..4]. *)
Definition at_index (revs : list num) (i : nat) : num := nth i revs (lit 0).

Definition mean_stars (revs : list num) : num :=
  if negb (List.length revs =? 5)%nat then lit 0 else
  let totalReviews := sumArray revs in
  if totalReviews === lit 0 then lit 0 else
  let weightedSum :=
    fold_left (fun weightedSum i => weightedSum + at_index revs i * (lit 5 - of_nat i))
              (seq 0 5) (lit 0) in
  weightedSum / totalReviews.

Definition standard_dev_stars (revs : list num) (mu : num) : num :=
  if negb (List.length revs =? 5)%nat then lit 0 else
  let totalReviews := sumArray revs in
  if totalReviews <=? lit 1 then lit 0 else
  let sumSquaredDifferences :=
    fold_left (fun sumSquaredDifferences i =>
                 let starValue := lit 5 - of_nat i in
                 sumSquaredDifferences + at_index revs i * Math_pow (starValue - mu) 2)
              (seq 0 5) (lit 0) in
  Math_sqrt (sumSquaredDifferences / (totalReviews - lit 1)).

Record MeanAndSE : Type := { mu : num; se : num }.

Definition getMeanAndSE (rev_nums : list num) : MeanAndSE :=
  let mu := mean_stars rev_nums in
  let standard_dev := standard_dev_stars rev_nums mu in
  let totalReviews := sumArray rev_nums in
  let se := if lit 0 <? totalReviews
            then standard_dev / Math_sqrt totalReviews
            else lit 0 in
  {| mu := mu; se := se |}.

(** Returns the two-element array [[lowerBound, upperBound]]. *)
Definition get_confidence_int (mu se k : num) : num * num :=
  let lowerBound := mu - se * k in
  let upperBound := mu + se * k in
  (lowerBound, upperBound).

(** Lines 43-63 of the click handler, one definition per [const]. *)
Definition meanStarRating (starCounts : list num) : num := mu (getMeanAndSE starCounts).
Definition seStarRating (starCounts : list num) : num := se (getMeanAndSE starCounts).

Definition k_z_score : num := lit 1.96.

Definition confidenceIntervalStars (starCounts : list num) : num * num :=
  get_confidence_int (meanStarRating starCounts) (seStarRating starCounts) k_z_score.

Definition estimatedConfidencePercent (starCounts : list num) : num :=
  ((meanStarRating starCounts - lit 1) / lit 4) * lit 100.

Definition lowerBoundPercent (starCounts : list num) : num :=
  ((fst (confidenceIntervalStars starCounts) - lit 1) / lit 4) * lit 100.

Definition upperBoundPercent (starCounts : list num) : num :=
  ((snd (confidenceIntervalStars starCounts) - lit 1) / lit 4) * lit 100.

Definition displayLowerBound (starCounts : list num) : num :=
  Math_max (lit 0) (lowerBoundPercent starCounts).

Definition displayUpperBound (starCounts : list num) : num :=
  Math_min (lit 100) (upperBoundPercent starCounts).

Record ExtractedData : Type := {
  placeName : option string;
  reviewsCount : JS.nullable num;
  category : string;
  starCounts : option (list num)
}.

(** The figures of the result panel. *)
Record Shown : Type := {
  shown_mean : num;
  shown_interval : num * num;
  shown_confidence : num;
  shown_lower : num;
  shown_upper : num
}.

Inductive Outcome : Type :=
| Result (r : Shown)
| NotEnoughData
| NoPlaceName
| CouldNotExtract
| UnexpectedError.

(** [totalReviewsCount === 0 || !starCounts || starCounts.length !== 5],
    evaluated left to right with short-circuiting. *)
Definition not_enough (totalReviewsCount : num) (starCounts : option (list num))
    : JS.completion bool :=
  if totalReviewsCount === lit 0 then JS.Normal true
  else if JS.is_absent starCounts then JS.Normal true
  else arr <- JS.deref starCounts ;; JS.Normal (negb (List.length arr =? 5)%nat).

(** The click handler from the point where the content script has
    answered.  [sumArray(starCounts)] reads [starCounts.reduce], which
    throws when [starCounts] is absent; both templates read
    [reviewsCount.toLocaleString], which throws when the guard has let an
    [undefined] count through. *)
Definition checkConfidence (extractedData : option ExtractedData) : Outcome :=
  JS.try_catch
    (match extractedData with
     | Some d =>
         if JS.truthy_string (placeName d) && JS.not_null (reviewsCount d)
         then
           totalReviewsCount <-
             (arr <- JS.deref (starCounts d) ;; JS.Normal (sumArray arr)) ;;
           insufficient <- not_enough totalReviewsCount (starCounts d) ;;
           if insufficient then
             _ <- JS.read (reviewsCount d) ;;
             JS.Normal NotEnoughData
           else
             arr <- JS.deref (starCounts d) ;;
             _ <- JS.read (reviewsCount d) ;;
             JS.Normal (Result {|
               shown_mean := meanStarRating arr;
               shown_interval := confidenceIntervalStars arr;
               shown_confidence := estimatedConfidencePercent arr;
               shown_lower := displayLowerBound arr;
               shown_upper := displayUpperBound arr |})
         else if negb (JS.truthy_string (placeName d))
         then JS.Normal NoPlaceName
         else JS.Normal CouldNotExtract
     | None => JS.Normal CouldNotExtract
     end)
    (fun _ => UnexpectedError).

(** [getConfidenceColor]: the colour of the score, as a hex code. *)
Definition getConfidenceColor (confidence : num) : string :=
  if (lit 80 <=? confidence)%num then "#38a169"%string
  else if (lit 50 <=? confidence)%num then "#d69e2e"%string
  else "#e53e3e"%string.

(** [text_to_num]: the first number in a text such as "1,687 reviews". *)
Definition text_to_num (text : option string) : JSText.parsed :=
  match text with
  | None => JSText.Int 0
  | Some text =>
      if negb (JS.truthy_string (Some text)) then JSText.Int 0
      else
        match JSText.match_digits_commas text with
        | Some capture =>
            if JS.truthy_string (Some capture)
            then JSText.parseInt (JSText.remove_commas capture)
            else JSText.Int 0
        | None => JSText.Int 0
        end
  end.

(** [percents_to_real_percents]: the percentage in a style attribute such
    as "width: 73%;". *)
Definition percents_to_real_percents (styleText : option string)
    : JSText.parsed_decimal :=
  match styleText with
  | None => JSText.Dec 0
  | Some styleText =>
      if negb (JS.truthy_string (Some styleText)) then JSText.Dec 0
      else
        match JSText.match_width styleText with
        | Some capture =>
            if JS.truthy_string (Some capture)
            then JSText.parseFloat capture
            else JSText.Dec 0
        | None => JSText.Dec 0
        end
  end.

Context `{Rounding num}.

(** Lines 281-283 of the content script: the loop that pushes one estimated
    count per star bucket. *)
Definition push_counts (reviewsCount : num) (starPercentages : list num)
    (totalPercentageSum : num) : list num :=
  fold_left
    (fun starCounts i =>
       (starCounts ++
        [Math_round (reviewsCount * (at_index starPercentages i / totalPercentageSum))])%list)
    (seq 0 5) [].

(** Lines 277-289: the value of [starCounts] when the content script
    returns, from the review count and the five bar widths it has read. *)
Definition estimate_starCounts (reviewsCount : num) (starPercentages : list num)
    : list num :=
  if (lit 0 <? reviewsCount) && (List.length starPercentages =? 5)%nat then
    let totalPercentageSum := sumArray starPercentages in
    if lit 0 <? totalPercentageSum
    then push_counts reviewsCount starPercentages totalPercentageSum
    else [lit 0; lit 0; lit 0; lit 0; lit 0]
  else [lit 0; lit 0; lit 0; lit 0; lit 0].

(** [extractGoogleMapsReviewData] from line 261 on, as a function of what
    the page queries above it have left in [placeName], [reviewsCount],
    [category] and [starPercentages]. *)
Definition extractGoogleMapsReviewData (placeName : option string)
    (reviewsCount : option num) (category : string) (starPercentages : list num)
    : ExtractedData :=
  let reviewsCount :=
    match reviewsCount with
    | None => lit 0
    | Some count => count
    end in
  {| placeName := placeName;
     reviewsCount := JS.Value reviewsCount;
     category := category;
     starCounts := Some (estimate_starCounts reviewsCount starPercentages) |}.

End WithNumber.
Arguments MeanAndSE num : clear implicits.
Arguments ExtractedData num : clear implicits.
Arguments Shown num : clear implicits.
Arguments Outcome num : clear implicits.
End Part000.

(** ** [part_001]: the second variant of the star-distribution estimator *)

Module Part001.
Section WithNumber.
Context {num : Type} `{Number num}.
Local Open Scope num_scope.

Definition sumArray (arr : list num) : num :=
  fold_left (fun sum current => sum + current) arr (lit 0).

Definition at_index (revs : list num) (i : nat) : num := nth i revs (lit 0).

Definition mean_stars (revs : list num) : num :=
  if negb (List.length revs =? 5)%nat then lit 0 else
  let totalReviews := sumArray revs in
  if totalReviews === lit 0 then lit 0 else
  let weightedSum :=
    fold_left (fun weightedSum i => weightedSum + at_index revs i * (lit 5 - of_nat i))
              (seq 0 5) (lit 0) in
  weightedSum / totalReviews.

Definition standard_dev_stars (revs : list num) (mu : num) : num :=
  if negb (List.length revs =? 5)%nat then lit 0 else
  let totalReviews := sumArray revs in
  if totalReviews <=? lit 1 then lit 0 else
  let sumSquaredDifferences :=
    fold_left (fun sumSquaredDifferences i =>
                 let starValue := lit 5 - of_nat i in
                 sumSquaredDifferences + at_index revs i * Math_pow (starValue - mu) 2)
              (seq 0 5) (lit 0) in
  Math_sqrt (sumSquaredDifferences / (totalReviews - lit 1)).

Record MeanAndSE : Type := { mu : num; se : num }.

Definition getMeanAndSE (rev_nums : list num) : MeanAndSE :=
  let mu := mean_stars rev_nums in
  let standard_dev := standard_dev_stars rev_nums mu in
  let totalReviews := sumArray rev_nums in
  let se := if lit 0 <? totalReviews
            then standard_dev / Math_sqrt totalReviews
            else lit 0 in
  {| mu := mu; se := se |}.

Definition get_confidence_int (mu se k : num) : num * num :=
  let lowerBound := mu - se * k in
  let upperBound := mu + se * k in
  (lowerBound, upperBound).

(** Lines 39-56 of the click handler, one definition per [const]. *)
Definition meanStarRating (starCounts : list num) : num := mu (getMeanAndSE starCounts).

Definition seStarRating (starCounts : list num) : num := se (getMeanAndSE starCounts).

Definition k_z_score : num := lit 1.96.

Definition confidenceIntervalStars (starCounts : list num) : num * num :=
  get_confidence_int (meanStarRating starCounts) (seStarRating starCounts) k_z_score.

Definition estimatedConfidencePercent (starCounts : list num) : num :=
  ((meanStarRating starCounts - lit 1) / lit 4) * lit 100.

Definition lowerBoundPercent (starCounts : list num) : num :=
  ((fst (confidenceIntervalStars starCounts) - lit 1) / lit 4) * lit 100.

Definition upperBoundPercent (starCounts : list num) : num :=
  ((snd (confidenceIntervalStars starCounts) - lit 1) / lit 4) * lit 100.

Definition displayLowerBound (starCounts : list num) : num :=
  Math_max (lit 0) (lowerBoundPercent starCounts).

Definition displayUpperBound (starCounts : list num) : num :=
  Math_min (lit 100) (upperBoundPercent starCounts).

Definition getConfidenceColor (confidence : num) : string :=
  if (lit 80 <=? confidence)%num then "#38a169"%string
  else if (lit 50 <=? confidence)%num then "#d69e2e"%string
  else "#e53e3e"%string.

Record ExtractedData : Type := {
  placeName : option string;
  reviewsCount : JS.nullable num;
  category : string;
  starCounts : option (list num)
}.

(** This variant shows the confidence and its interval only. *)
Record Shown : Type := {
  shown_confidence : num;
  shown_color : string;
  shown_lower : num;
  shown_upper : num
}.

Inductive Outcome : Type :=
| Result (r : Shown)
| NotEnoughData
| NoPlaceName
| CouldNotExtract
| UnexpectedError.

Definition not_enough (totalReviewsCount : num) (starCounts : option (list num))
    : JS.completion bool :=
  if totalReviewsCount === lit 0 then JS.Normal true
  else if JS.is_absent starCounts then JS.Normal true
  else arr <- JS.deref starCounts ;; JS.Normal (negb (List.length arr =? 5)%nat).

(** The click handler of this variant, from the point where the content
    script has answered.  Its templates do not mention the review count, so
    an [undefined] one goes unnoticed. *)
Definition checkConfidence (extractedData : option ExtractedData) : Outcome :=
  JS.try_catch
    (match extractedData with
     | Some d =>
         if JS.truthy_string (placeName d) && JS.not_null (reviewsCount d)
         then
           totalReviewsCount <-
             (arr <- JS.deref (starCounts d) ;; JS.Normal (sumArray arr)) ;;
           insufficient <- not_enough totalReviewsCount (starCounts d) ;;
           if insufficient then JS.Normal NotEnoughData
           else
             arr <- JS.deref (starCounts d) ;;
             JS.Normal (Result {|
               shown_confidence := estimatedConfidencePercent arr;
               shown_color := getConfidenceColor (estimatedConfidencePercent arr);
               shown_lower := displayLowerBound arr;
               shown_upper := displayUpperBound arr |})
         else if negb (JS.truthy_string (placeName d))
         then JS.Normal NoPlaceName
         else JS.Normal CouldNotExtract
     | None => JS.Normal CouldNotExtract
     end)
    (fun _ => UnexpectedError).

End WithNumber.
Arguments MeanAndSE num : clear implicits.
Arguments ExtractedData num : clear implicits.
Arguments Shown num : clear implicits.
Arguments Outcome num : clear implicits.
End Part001.

(** * Vocabulary of the properties *)

Section Vocabulary.
Local Open Scope string_scope.

(** A profile as the data model admits it. *)
Definition valid_profile (cfg : ConfInt.CategoryProfile R) : Prop :=
  (0 < ConfInt.maxReviews cfg /\
   0 < ConfInt.weight cfg <= 1 /\
   0 < ConfInt.baseUncertaintyFactor cfg <= 1)%R.

(** The fallback entry of the table. *)
Definition GenericProfile {num : Type} `{Number num} : ConfInt.CategoryProfile num :=
  {| ConfInt.maxReviews := lit 1000;
     ConfInt.weight := lit 0.55;
     ConfInt.baseUncertaintyFactor := lit 0.45 |}.

(** [t] occurs in [s]. *)
Definition substring_of (t s : string) : Prop :=
  exists before after, s = before ++ t ++ after.

(** The resolver's test, for any texts: [key] occurs in the category text
    or in the place name once the runtime has put them in lower case. *)
Definition key_occurs `{JS.Runtime} (category placeName key : string) : Prop :=
  substring_of (JS.toLowerCase key) (JS.toLowerCase category) \/
  substring_of (JS.toLowerCase key) (JS.toLowerCase placeName).

(** Letter case, said without any case mapping: the 26 letters of ASCII,
    each with its capital and its small form. *)
Definition capital_letters : string := "ABCDEFGHIJKLMNOPQRSTUVWXYZ".

Definition small_letters : string := "abcdefghijklmnopqrstuvwxyz".

Definition letters : list (ascii * ascii) :=
  combine (list_ascii_of_string capital_letters) (list_ascii_of_string small_letters).

(** Two characters that are equal, or the two forms of one letter. *)
Definition same_letter (c d : ascii) : Prop :=
  c = d \/ In (c, d) letters \/ In (d, c) letters.

(** Two texts that differ at most in the case of their letters. *)
Fixpoint same_letters (s t : string) : Prop :=
  match s, t with
  | EmptyString, EmptyString => True
  | String c s', String d t' => same_letter c d /\ same_letters s' t'
  | _, _ => False
  end.


(** The Kelvin sign U+212A in UTF-8. *)
Definition kelvin_sign : string :=
  String (ascii_of_nat 226) (String (ascii_of_nat 132) (String (ascii_of_nat 170) "")).

(** The Kelvin sign becomes the letter [k]; everything else stays. *)
Fixpoint lower_kelvin (s : string) : string :=
  match s with
  | EmptyString => EmptyString
  | String a s1 =>
      match s1 with
      | String b (String c rest) =>
          if String.eqb (String a (String b (String c ""))) kelvin_sign
          then String "k" (lower_kelvin rest)
          else String a (lower_kelvin s1)
      | _ => String a (lower_kelvin s1)
      end
  end.

(** The value on the 0-100 scale of a value on the 1-5 star scale. *)
Definition percent (v : R) : R := ((v - 1) / 4 * 100)%R.

(** Restriction to the interval [0,100]. *)
Definition clamp (v : R) : R := Rmin 100 (Rmax 0 v).

(** Star counts as the numbers the script receives. *)
Definition counts (starCounts : list nat) : list R := map of_nat starCounts.


(** A place with the given star counts, in binary64. *)
Definition stars (starCounts : list Z) : Part000.ExtractedData float :=
  {| Part000.placeName := Some "Cafe X";
     Part000.reviewsCount := JS.Value (of_Z (fold_right Z.add 0%Z starCounts));
     Part000.category := "Cafe";
     Part000.starCounts := Some (map of_Z starCounts) |}.

(** The integers [from, from + 1, ...], [len] of them. *)
Fixpoint count_up (from : Z) (len : nat) : list Z :=
  match len with
  | O => []
  | S len' => from :: count_up (from + 1)%Z len'
  end.

(** The integers [0, 1, ..., n]. *)
Definition up_to (n : Z) : list Z := count_up 0 (Z.to_nat (n + 1)).

(** What C1, C8 and C9 say of one profile at the review count [n] and its
    successor, decided by running the estimator in binary64: the bounds are
    ordered within [0,100], the point estimate does not decrease and stays
    below its value at maxReviews until the count reaches maxReviews, from
    where on it has that value, and the standard error decreases
    strictly. *)
Definition aggregate_claims_at (cfg : ConfInt.CategoryProfile float) (n : Z) : bool :=
  let x := of_Z n in
  let next := of_Z (n + 1) in
  let point := ConfInt.mu_confidence_score cfg x in
  let plateau := ConfInt.mu_confidence_score cfg (ConfInt.maxReviews cfg) in
  (lit 0 <=? ConfInt.lowerBound cfg x)%num
  && (ConfInt.lowerBound cfg x <=? point)%num
  && (point <=? ConfInt.upperBound cfg x)%num
  && (ConfInt.upperBound cfg x <=? lit 100)%num
  && (point <=? ConfInt.mu_confidence_score cfg next)%num
  && (if (x <? ConfInt.maxReviews cfg)%num then (point <? plateau)%num
      else (point === plateau)%num)
  && (ConfInt.se cfg next <? ConfInt.se cfg x)%num.

(** All lists of five star counts, each at most [n]. *)
Definition star_counts_up_to (n : Z) : list (list Z) :=
  let one := up_to n in
  flat_map (fun a => flat_map (fun b => flat_map (fun c => flat_map (fun d =>
    map (fun e => [a; b; c; d; e]) one) one) one) one) one.

(** What C2 says of one list of star counts, decided by running the
    estimator in binary64. *)
Definition star_claims_at (starCounts : list Z) : bool :=
  let revs : list float := map of_Z starCounts in
  let point := Part000.estimatedConfidencePercent revs in
  let lower := Part000.displayLowerBound revs in
  let upper := Part000.displayUpperBound revs in
  (Part000.sumArray revs === lit 0)%num
  || (lit 0 <=? lower)%num && (lower <=? point)%num
     && (point <=? upper)%num && (upper <=? lit 100)%num.

(** What X10 says of [c] reviews that all give the rating [5 - i], decided
    by running the estimator in binary64. *)
Definition unanimous_claims_at (i : nat) (c : Z) : bool :=
  let revs : list float :=
    map (fun j => if (j =? i)%nat then of_Z c else lit 0) (seq 0 5) in
  let point := of_Z (25 * (4 - Z.of_nat i)) in
  (Part000.meanStarRating revs === of_Z (5 - Z.of_nat i))%num
  && (Part000.seStarRating revs === lit 0)%num
  && (Part000.estimatedConfidencePercent revs === point)%num
  && (Part000.displayLowerBound revs === point)%num
  && (Part000.displayUpperBound revs === point)%num.

(** [lo <= x <= hi] in binary64, for decimal bounds. *)
Definition within (lo hi : Q) (x : float) : bool :=
  (lit lo <=? x)%num && (x <=? lit hi)%num.

End Vocabulary.

(** * Properties of the estimators *)

Local Open Scope R_scope.

(** Unfolds the [Number] interface at its real instance. *)
Ltac real_ops :=
  cbn [lit of_nat Math_pow Qnum Qden of_Z num_add num_sub num_mul num_div
       Math_sqrt Math_min Math_max num_eqb num_ltb num_leb R_Number] in *.

(** ** The aggregate-count estimator *)

Section Aggregate.
Import ConfInt.

Lemma of_nat_nonneg (n : nat) : 0 <= @of_nat R _ n.
Proof. unfold of_nat; real_ops. apply IZR_le. lia. Qed.

Lemma of_nat_le (n m : nat) : (n <= m)%nat -> @of_nat R _ n <= of_nat m.
Proof. intros Hnm. unfold of_nat; real_ops. apply IZR_le. lia. Qed.

Lemma of_nat_lt (n m : nat) : (n < m)%nat -> @of_nat R _ n < of_nat m.
Proof. intros Hnm. unfold of_nat; real_ops. apply IZR_lt. lia. Qed.

Lemma normalized_ratio_bounds (x M : R) :
  0 <= x -> 0 < M -> 0 <= Rmin x M / M <= 1.
Proof.
  intros Hx HM.
  assert (H0 : 0 <= Rmin x M) by (apply Rmin_glb; lra).
  assert (H1 : Rmin x M <= M) by apply Rmin_r.
  split.
  - apply Rmult_le_pos; [exact H0 | left; apply Rinv_0_lt_compat; exact HM].
  - apply Rmult_le_reg_r with (r := M); [exact HM |].
    unfold Rdiv. rewrite Rmult_assoc, Rinv_l by lra. lra.
Qed.

Lemma mu_confidence_score_eq (cfg : CategoryProfile R) (x : R) :
  mu_confidence_score cfg x
  = Rmin x (maxReviews cfg) / maxReviews cfg * weight cfg * 100.
Proof. unfold mu_confidence_score, normalizedReviews. real_ops. reflexivity. Qed.

Lemma se_eq (cfg : CategoryProfile R) (x : R) :
  se cfg x = 20 * baseUncertaintyFactor cfg / sqrt (x + 1).
Proof. unfold se, baseErrorMagnitude, effectiveSampleSize. real_ops. reflexivity. Qed.

Lemma k_z_score_eq : @k_z_score R _ = 1.96.
Proof. unfold k_z_score. real_ops. lra. Qed.

Lemma mu_confidence_score_bounds (cfg : CategoryProfile R) (x : R) :
  valid_profile cfg -> 0 <= x ->
  0 <= mu_confidence_score cfg x <= weight cfg * 100.
Proof.
  intros (HM & Hw & _) Hx.
  rewrite mu_confidence_score_eq.
  pose proof (normalized_ratio_bounds Hx HM) as Hr.
  split; nra.
Qed.

Lemma se_pos (cfg : CategoryProfile R) (x : R) :
  valid_profile cfg -> 0 <= x -> 0 < se cfg x.
Proof.
  intros (_ & _ & HU) Hx.
  rewrite se_eq.
  apply Rdiv_lt_0_compat; [lra | apply sqrt_lt_R0; lra].
Qed.




Lemma bounds_ordered (cfg : CategoryProfile R) (x : R) :
  valid_profile cfg -> 0 <= x ->
  0 <= lowerBound cfg x /\
  lowerBound cfg x <= mu_confidence_score cfg x /\
  mu_confidence_score cfg x <= upperBound cfg x /\
  upperBound cfg x <= 100.
Proof.
  intros Hcfg Hx.
  pose proof (mu_confidence_score_bounds Hcfg Hx) as [Hlo Hhi].
  pose proof (se_pos Hcfg Hx) as Hse.
  destruct Hcfg as (_ & Hw & _).
  unfold lowerBound, upperBound.
  rewrite k_z_score_eq.
  set (point := mu_confidence_score cfg x) in *.
  set (s := se cfg x) in *.
  real_ops.
  repeat split.
  - apply Rmax_l.
  - apply Rmax_lub; nra.
  - apply Rmin_glb; nra.
  - apply Rmin_l.
Qed.

(** Every entry of the built-in table is a valid profile. *)
Lemma categoryConfigs_valid :
  Forall (fun entry => valid_profile (snd entry)) (@categoryConfigs R _).
Proof.
  unfold categoryConfigs.
  repeat (constructor; [unfold valid_profile; cbn [snd maxReviews weight baseUncertaintyFactor]; real_ops; lra |]).
  constructor.
Qed.

End Aggregate.

(** ** Strings and tables *)

Section Strings.
Local Open Scope string_scope.

Lemma prefix_iff (t s : string) :
  String.prefix t s = true <-> exists after, s = t ++ after.
Proof.
  revert t; induction s as [| d s IH]; intros [| c t]; cbn.
  - split; [intros _; exists ""; reflexivity | reflexivity].
  - split; [discriminate | intros [after Heq]; discriminate].
  - split; [intros _; exists (String d s); reflexivity | reflexivity].
  - destruct (ascii_dec c d) as [-> | Hne].
    + rewrite IH. split; intros [after Heq]; exists after.
      * rewrite Heq; reflexivity.
      * injection Heq as Heq; exact Heq.
    + split; [discriminate |].
      intros [after Heq]. injection Heq as Hc _. congruence.
Qed.

Lemma includes_iff (s t : string) :
  JS.includes s t = true <-> substring_of t s.
Proof.
  induction s as [| d s IH].
  - cbn [JS.includes]. rewrite orb_false_r, prefix_iff. split.
    + intros [after Heq]. exists "", after. exact Heq.
    + intros (before & after & Heq).
      destruct before as [| b before]; [| discriminate].
      exists after. exact Heq.
  - cbn [JS.includes]. rewrite orb_true_iff, prefix_iff, IH. split.
    + intros [[after Heq] | (before & after & Heq)].
      * exists "", after. exact Heq.
      * exists (String d before), after. rewrite Heq. reflexivity.
    + intros (before & after & Heq).
      destruct before as [| b before].
      * left. exists after. exact Heq.
      * right. injection Heq as _ Heq. exists before, after. exact Heq.
Qed.

Lemma get_middle {A : Type} (before after : JS.object A) (key : string) (v : A) :
  ~ In key (JS.keys before) ->
  JS.get (before ++ (key, v) :: after)%list key = Some v.
Proof.
  induction before as [| [k w] before IH]; intros Hnotin; cbn.
  - rewrite String.eqb_refl. reflexivity.
  - destruct (String.eqb_spec k key) as [-> | Hne].
    + exfalso. apply Hnotin. left. reflexivity.
    + apply IH. intros Hin. apply Hnotin. right. exact Hin.
Qed.

Example toLowerCase_example :
  JS.toLowerCase "First National BANK (Main St. 12)" = "first national bank (main st. 12)".
Proof. reflexivity. Qed.

(** *** Letter case *)

Lemma lower_ascii_letter (c : ascii) :
  JS.lower_ascii c = c \/ In (c, JS.lower_ascii c) letters.
Proof.
  destruct c as [[] [] [] [] [] [] [] []];
    first [ left; reflexivity
          | right; vm_compute; repeat (first [left; reflexivity | right]) ].
Qed.

Lemma letters_lower (c d : ascii) :
  In (c, d) letters -> JS.lower_ascii c = d /\ JS.lower_ascii d = d.
Proof.
  intros Hin. vm_compute in Hin.
  repeat (destruct Hin as [Heq | Hin];
          [injection Heq as <- <-; split; reflexivity |]).
  contradiction.
Qed.

Lemma letters_ascii (c d : ascii) :
  In (c, d) letters -> JS.is_ascii_char c = true /\ JS.is_ascii_char d = true.
Proof.
  intros Hin. vm_compute in Hin.
  repeat (destruct Hin as [Heq | Hin];
          [injection Heq as <- <-; split; reflexivity |]).
  contradiction.
Qed.

Lemma letters_capital (c d : ascii) :
  In (c, d) letters -> nat_of_ascii d = (nat_of_ascii c + 32)%nat.
Proof.
  intros Hin. vm_compute in Hin.
  repeat (destruct Hin as [Heq | Hin]; [injection Heq as <- <-; reflexivity |]).
  contradiction.
Qed.

Lemma nat_of_ascii_inj (c d : ascii) : nat_of_ascii c = nat_of_ascii d -> c = d.
Proof.
  intros Heq.
  rewrite <- (ascii_nat_embedding c), <- (ascii_nat_embedding d), Heq.
  reflexivity.
Qed.

(** The case mapping of ASCII identifies exactly the two forms of a letter. *)
Lemma same_letter_iff (c d : ascii) :
  same_letter c d <-> JS.lower_ascii c = JS.lower_ascii d.
Proof.
  split.
  - intros [-> | [Hin | Hin]].
    + reflexivity.
    + destruct (letters_lower Hin) as [-> ->]. reflexivity.
    + destruct (letters_lower Hin) as [-> ->]. reflexivity.
  - intros Heq.
    destruct (lower_ascii_letter c) as [Hc | Hc];
      destruct (lower_ascii_letter d) as [Hd | Hd].
    + left. rewrite <- Hc, <- Hd. exact Heq.
    + right. right. rewrite <- Hc, Heq. exact Hd.
    + right. left. rewrite <- Hd, <- Heq. exact Hc.
    + left. apply nat_of_ascii_inj.
      apply letters_capital in Hc. apply letters_capital in Hd.
      rewrite Heq in Hc. lia.
Qed.

Lemma same_letters_iff (s t : string) :
  same_letters s t <-> JS.ascii_toLowerCase s = JS.ascii_toLowerCase t.
Proof.
  revert t; induction s as [| c s IH]; intros [| d t];
    cbn [same_letters JS.ascii_toLowerCase].
  - split; [reflexivity | exact (fun _ => I)].
  - split; [contradiction | discriminate].
  - split; [contradiction | discriminate].
  - rewrite same_letter_iff, IH. split.
    + intros [-> ->]. reflexivity.
    + intros Heq. injection Heq as Hc Hs. split; assumption.
Qed.

Lemma same_letters_ascii (s t : string) :
  same_letters s t -> JS.is_ascii s = true -> JS.is_ascii t = true.
Proof.
  revert t; induction s as [| c s IH]; intros [| d t];
    cbn [same_letters JS.is_ascii]; try contradiction; [reflexivity |].
  intros [Hcd Hst] Hs.
  apply andb_true_iff in Hs. destruct Hs as [Hc Hs].
  apply andb_true_iff. split; [| apply IH; assumption].
  destruct Hcd as [<- | [Hin | Hin]].
  - exact Hc.
  - apply (letters_ascii Hin).
  - apply (letters_ascii Hin).
Qed.



(** *** A case mapping that reaches beyond ASCII *)

Lemma lower_kelvin_ascii (s : string) :
  JS.is_ascii s = true -> lower_kelvin s = s.
Proof.
  induction s as [| a s1 IH]; [reflexivity |].
  intros Hs. cbn [JS.is_ascii] in Hs.
  apply andb_true_iff in Hs. destruct Hs as [Ha Hs1].
  cbn [lower_kelvin].
  assert (Hrest : String a (lower_kelvin s1) = String a s1)
    by (rewrite (IH Hs1); reflexivity).
  destruct s1 as [| b [| c rest]]; try exact Hrest.
  destruct (String.eqb_spec (String a (String b (String c ""))) kelvin_sign)
    as [Heq | _]; [| exact Hrest].
  injection Heq as -> _ _. discriminate Ha.
Qed.

Lemma lower_ascii_is_ascii (c : ascii) :
  JS.is_ascii_char c = true -> JS.is_ascii_char (JS.lower_ascii c) = true.
Proof.
  destruct c as [[] [] [] [] [] [] [] []]; intros Hc;
    first [discriminate Hc | reflexivity].
Qed.

Lemma ascii_toLowerCase_is_ascii (s : string) :
  JS.is_ascii s = true -> JS.is_ascii (JS.ascii_toLowerCase s) = true.
Proof.
  induction s as [| c s IH]; cbn [JS.is_ascii JS.ascii_toLowerCase]; [reflexivity |].
  intros Hs. apply andb_true_iff in Hs. destruct Hs as [Hc Hs].
  rewrite (lower_ascii_is_ascii c Hc), (IH Hs). reflexivity.
Qed.

(** A runtime whose case mapping lower-cases ASCII and the Kelvin sign. *)
Definition Kelvin_aware : JS.Runtime := {|
  JS.toLowerCase := fun s => lower_kelvin (JS.ascii_toLowerCase s);
  JS.toLowerCase_ascii :=
    fun s Hs => lower_kelvin_ascii (JS.ascii_toLowerCase s)
                  (ascii_toLowerCase_is_ascii s Hs)
|}.


Example includes_example :
  JS.includes "first national bank" "bank" = true /\
  JS.includes "first national bank" "banks" = false.
Proof. split; reflexivity. Qed.

End Strings.

(** ** The category profile resolver *)

Section Resolver.
Context {num : Type} `{Number num} `{JS.Runtime}.
Import ConfInt.
Local Open Scope string_scope.

Lemma key_matches_iff (category placeName key : string) :
  key_matches (JS.toLowerCase category) placeName key = true
  <-> key_occurs category placeName key.
Proof.
  unfold key_matches, key_occurs.
  rewrite orb_true_iff, !includes_iff. reflexivity.
Qed.

Lemma categoryConfigs_keys :
  JS.keys (@categoryConfigs num _) =
  ["Restaurant"; "Cafe"; "Store"; "Park"; "Hotel"; "Museum"; "Bank";
   "Hospital"; "School"; "Generic"]%list.
Proof. reflexivity. Qed.

Lemma categoryConfigs_NoDup : NoDup (JS.keys (@categoryConfigs num _)).
Proof.
  rewrite categoryConfigs_keys.
  repeat (constructor; [cbn [In]; intuition discriminate |]).
  constructor.
Qed.

Lemma categoryConfigs_Generic :
  JS.get (@categoryConfigs num _) "Generic" = Some GenericProfile.
Proof. reflexivity. Qed.

Lemma categoryConfigs_ascii :
  Forall (fun key => JS.is_ascii key = true) (JS.keys (@categoryConfigs num _)).
Proof.
  rewrite categoryConfigs_keys.
  repeat (constructor; [reflexivity |]). constructor.
Qed.


(** The loop either stops at the first key that occurs, with the table's
    entry for it, or runs through and leaves both variables untouched. *)
Lemma keyword_loop_spec (category placeName : string)
    (selected : option (CategoryProfile num)) (name : string) :
  forall rest before : JS.object (CategoryProfile num),
    categoryConfigs = (before ++ rest)%list ->
    Forall (fun entry => ~ key_occurs category placeName (fst entry)) before ->
    let r := keyword_loop (JS.keys rest) (JS.toLowerCase category) placeName
               selected name in
    (exists earlier key cfg later,
        categoryConfigs = (earlier ++ (key, cfg) :: later)%list /\
        Forall (fun entry => ~ key_occurs category placeName (fst entry)) earlier /\
        key_occurs category placeName key /\
        r = (Some cfg, key))
    \/
    (Forall (fun entry => ~ key_occurs category placeName (fst entry)) categoryConfigs /\
     r = (selected, name)).
Proof.
  induction rest as [| [key cfg] rest IH]; intros before Htable Hbefore;
    cbn [keyword_loop JS.keys map fst].
  - right. split; [| reflexivity].
    rewrite Htable, app_nil_r. exact Hbefore.
  - destruct (key_matches (JS.toLowerCase category) placeName key) eqn:Hmatch.
    + left. exists before, key, cfg, rest.
      apply key_matches_iff in Hmatch.
      repeat split; try assumption.
      f_equal. rewrite Htable. apply get_middle.
      pose proof categoryConfigs_NoDup as Hnd.
      rewrite Htable in Hnd. unfold JS.keys in *.
      rewrite map_app in Hnd. cbn in Hnd.
      apply NoDup_remove_2 in Hnd.
      intros Hin. apply Hnd. apply in_or_app. left. exact Hin.
    + apply (IH (before ++ [(key, cfg)])%list).
      * rewrite <- app_assoc. exact Htable.
      * apply Forall_app. split; [exact Hbefore |].
        constructor; [| constructor].
        cbn. rewrite <- key_matches_iff, Hmatch. discriminate.
Qed.

End Resolver.

Section ResolverResults.
Context {num : Type} `{Number num} `{JS.Runtime}.
Import ConfInt.
Local Open Scope string_scope.

Lemma selectedCategoryConfig_spec (category placeName : string) :
  let r := @selectedCategoryConfig num _ _ category placeName in
  (exists earlier key cfg later,
      categoryConfigs = (earlier ++ (key, cfg) :: later)%list /\
      Forall (fun entry => ~ key_occurs category placeName (fst entry)) earlier /\
      key_occurs category placeName key /\
      r = (Some cfg, key))
  \/
  (Forall (fun entry => ~ key_occurs category placeName (fst entry)) categoryConfigs /\
   r = (Some GenericProfile, "Generic")).
Proof.
  unfold selectedCategoryConfig.
  rewrite categoryConfigs_Generic.
  apply keyword_loop_spec with (before := nil); [reflexivity | constructor].
Qed.

(** Whatever is selected is an entry of the table under the reported key. *)
Lemma selectedCategoryConfig_in_table (category placeName : string) :
  exists cfg key,
    @selectedCategoryConfig num _ _ category placeName = (Some cfg, key) /\
    In (key, cfg) categoryConfigs.
Proof.
  destruct (selectedCategoryConfig_spec category placeName)
    as [(earlier & key & cfg & later & Htable & _ & _ & Hr) | [_ Hr]].
  - exists cfg, key. split; [exact Hr |].
    rewrite Htable. apply in_or_app. right. left. reflexivity.
  - exists GenericProfile, "Generic". split; [exact Hr |].
    cbn. do 9 right. left. reflexivity.
Qed.


End ResolverResults.

Section AggregateResults.
Context `{JS.Runtime}.
Import ConfInt.
Local Open Scope string_scope.

(** C1. For every review count [reviewsCount >= 0] and every valid profile
    (maxReviews > 0, weight and baseUncertaintyFactor in (0,1]) the
    aggregate-count path computes
    point = (min(reviewsCount, maxReviews) / maxReviews) * weight * 100,
    se = (20 * baseUncertaintyFactor) / sqrt(reviewsCount + 1),
    lower = max(0, point - 1.96 * se), upper = min(100, point + 1.96 * se),
    and these satisfy 0 <= lower <= point <= upper <= 100. *)
Theorem aggregate_bounds (cfg : CategoryProfile R) (reviewsCount : nat)
    (Hcfg : valid_profile cfg) :
  let n := of_nat reviewsCount in
  let point := mu_confidence_score cfg n in
  let lower := lowerBound cfg n in
  let upper := upperBound cfg n in
  point = Rmin n (maxReviews cfg) / maxReviews cfg * weight cfg * 100 /\
  se cfg n = 20 * baseUncertaintyFactor cfg / sqrt (n + 1) /\
  lower = Rmax 0 (point - 1.96 * se cfg n) /\
  upper = Rmin 100 (point + 1.96 * se cfg n) /\
  0 <= lower /\ lower <= point /\ point <= upper /\ upper <= 100.
Proof.
  intros n point lower upper.
  split; [apply mu_confidence_score_eq |].
  split; [apply se_eq |].
  split.
  { unfold lower, lowerBound. rewrite k_z_score_eq. fold point.
    real_ops. f_equal. lra. }
  split.
  { unfold upper, upperBound. rewrite k_z_score_eq. fold point.
    real_ops. f_equal. lra. }
  apply bounds_ordered; [exact Hcfg | apply of_nat_nonneg].
Qed.



Lemma table_valid (key : string) (cfg : CategoryProfile R) :
  In (key, cfg) categoryConfigs -> valid_profile cfg.
Proof.
  intros Hin.
  pose proof categoryConfigs_valid as Hall.
  rewrite Forall_forall in Hall.
  apply (Hall (key, cfg) Hin).
Qed.


(** What the handler shows for a named place with [n] reviews: resolution
    succeeds, nothing throws, and the figures are ordered within [0,100]. *)
Corollary checkConfidence_within_bounds (d : ExtractedData R) (n : nat) :
  JS.truthy_string (placeName d) = true ->
  reviewsCount d = JS.Value (of_nat n) ->
  exists r,
    checkConfidence (Some d) = Result r /\
    0 <= shown_lower r /\
    shown_lower r <= shown_confidence r /\
    shown_confidence r <= shown_upper r /\
    shown_upper r <= 100.
Proof.
  intros Hname Hcount.
  unfold checkConfidence. rewrite Hname, Hcount.
  destruct (placeName d) as [name |]; [| discriminate].
  cbn [JS.not_null andb JS.deref JS.read JS.bind].
  destruct (selectedCategoryConfig_in_table (num := R) (category d) name)
    as (cfg & key & -> & Hin).
  cbn [JS.deref JS.bind JS.try_catch].
  eexists. split; [reflexivity |].
  cbn [shown_lower shown_confidence shown_upper].
  apply bounds_ordered; [exact (table_valid Hin) | apply of_nat_nonneg].
Qed.

End AggregateResults.

(** ** The star-distribution estimator *)

Section StarStatistics.
Import Part000.

Lemma sumArray_acc (l : list R) (acc : R) :
  fold_left (fun sum current => sum + current) l acc = acc + sumArray l.
Proof.
  unfold sumArray. real_ops.
  revert acc; induction l as [| x l IH]; intros acc; cbn [fold_left].
  - lra.
  - rewrite IH, (IH (0 + x)). lra.
Qed.

Lemma sumArray_cons (x : R) (l : list R) : sumArray (x :: l) = x + sumArray l.
Proof.
  unfold sumArray at 1. real_ops. cbn [fold_left].
  rewrite sumArray_acc. lra.
Qed.

Lemma sumArray_nil : @sumArray R _ [] = 0.
Proof. reflexivity. Qed.

Lemma of_nat_plus (n m : nat) : @of_nat R _ (n + m) = of_nat n + of_nat m.
Proof. unfold of_nat; real_ops. rewrite Nat2Z.inj_add, plus_IZR. reflexivity. Qed.

Lemma of_nat_0 : @of_nat R _ 0 = 0.
Proof. reflexivity. Qed.

(** [sumArray] adds up the counts. *)
Lemma sumArray_counts (starCounts : list nat) :
  sumArray (counts starCounts) = of_nat (list_sum starCounts).
Proof.
  induction starCounts as [| c l IH]; cbn [counts map list_sum fold_right].
  - reflexivity.
  - fold (counts l). rewrite sumArray_cons, IH, of_nat_plus. reflexivity.
Qed.

Lemma sumArray5 (a b c d e : R) : sumArray [a; b; c; d; e] = a + b + c + d + e.
Proof. rewrite !sumArray_cons, sumArray_nil. lra. Qed.

Lemma length5 {A : Type} (l : list A) :
  List.length l = 5%nat -> exists a b c d e, l = [a; b; c; d; e].
Proof.
  destruct l as [| a [| b [| c [| d [| e [| f l]]]]]]; try discriminate.
  intros _. exists a, b, c, d, e. reflexivity.
Qed.

(** The two loops, written out for a five-element array. *)
Lemma mean_stars5 (a b c d e : R) :
  a + b + c + d + e <> 0 ->
  mean_stars [a; b; c; d; e]
  = (a * 5 + b * 4 + c * 3 + d * 2 + e * 1) / (a + b + c + d + e).
Proof.
  intros Hne. unfold mean_stars.
  rewrite sumArray5.
  cbn [List.length Nat.eqb negb seq fold_left at_index nth].
  real_ops.
  destruct (Req_dec_T (a + b + c + d + e) 0) as [Heq | _]; [contradiction |].
  f_equal. cbn [Z.of_nat Pos.of_succ_nat Pos.succ]. ring.
Qed.

Lemma mean_stars_zero (revs : list R) :
  List.length revs <> 5%nat \/ sumArray revs = 0 -> mean_stars revs = 0.
Proof.
  intros Hcase. unfold mean_stars.
  destruct (Nat.eqb_spec (List.length revs) 5) as [Hlen | Hlen]; cbn [negb].
  - destruct Hcase as [Hne | Hsum]; [contradiction |].
    rewrite Hsum. real_ops.
    destruct (Req_dec_T 0 0) as [_ | Hne]; [reflexivity | contradiction].
  - reflexivity.
Qed.

Lemma standard_dev_stars5 (a b c d e mu : R) :
  1 < a + b + c + d + e ->
  standard_dev_stars [a; b; c; d; e] mu
  = sqrt ((a * (5 - mu) ^ 2 + b * (4 - mu) ^ 2 + c * (3 - mu) ^ 2
           + d * (2 - mu) ^ 2 + e * (1 - mu) ^ 2)
          / (a + b + c + d + e - 1)).
Proof.
  intros Hgt. unfold standard_dev_stars.
  rewrite sumArray5.
  cbn [List.length Nat.eqb negb seq fold_left at_index nth].
  real_ops.
  destruct (Rle_dec (a + b + c + d + e) 1) as [Hle | _]; [lra |].
  f_equal. f_equal. cbn [Z.of_nat Pos.of_succ_nat Pos.succ]. ring.
Qed.

Lemma standard_dev_stars_zero (revs : list R) (mu : R) :
  List.length revs <> 5%nat \/ sumArray revs <= 1 -> standard_dev_stars revs mu = 0.
Proof.
  intros Hcase. unfold standard_dev_stars.
  destruct (Nat.eqb_spec (List.length revs) 5) as [Hlen | Hlen]; cbn [negb].
  - destruct Hcase as [Hne | Hsum]; [contradiction |].
    real_ops.
    destruct (Rle_dec (sumArray revs) 1) as [_ | Hgt]; [reflexivity | contradiction].
  - reflexivity.
Qed.

Lemma standard_dev_stars_nonneg (revs : list R) (mu : R) :
  0 <= standard_dev_stars revs mu.
Proof.
  unfold standard_dev_stars.
  destruct (negb (List.length revs =? 5)%nat); [real_ops; lra |].
  cbv zeta.
  destruct (sumArray revs <=? lit 1)%num; [real_ops; lra |].
  apply sqrt_pos.
Qed.

Lemma getMeanAndSE_mu (revs : list R) : mu (getMeanAndSE revs) = mean_stars revs.
Proof. reflexivity. Qed.

Lemma getMeanAndSE_se (revs : list R) :
  (0 < sumArray revs ->
   se (getMeanAndSE revs)
   = standard_dev_stars revs (mean_stars revs) / sqrt (sumArray revs)) /\
  (sumArray revs <= 0 -> se (getMeanAndSE revs) = 0).
Proof.
  unfold getMeanAndSE; cbn [se]. real_ops.
  destruct (Rlt_dec 0 (sumArray revs)) as [Hpos | Hnpos]; split; intros Hsum;
    try reflexivity; lra.
Qed.

Lemma getMeanAndSE_se_nonneg (revs : list R) : 0 <= se (getMeanAndSE revs).
Proof.
  destruct (Rlt_dec 0 (sumArray revs)) as [Hpos | Hnpos].
  - rewrite (proj1 (getMeanAndSE_se revs) Hpos).
    apply Rmult_le_pos; [apply standard_dev_stars_nonneg |].
    left. apply Rinv_0_lt_compat. apply sqrt_lt_R0. exact Hpos.
  - rewrite (proj2 (getMeanAndSE_se revs)) by lra. lra.
Qed.

End StarStatistics.

Section StarResults.
Import Part000.

Lemma of_nat_pos (n : nat) : (0 < n)%nat -> 0 < @of_nat R _ n.
Proof. intros Hn. rewrite <- of_nat_0. apply of_nat_lt. exact Hn. Qed.

Lemma counts5 (a b c d e : nat) :
  counts [a; b; c; d; e]
  = [of_nat a; of_nat b; of_nat c; of_nat d; of_nat e].
Proof. reflexivity. Qed.

Lemma list_sum5 (a b c d e : nat) :
  @of_nat R _ (list_sum [a; b; c; d; e])
  = of_nat a + of_nat b + of_nat c + of_nat d + of_nat e.
Proof.
  cbn [list_sum fold_right].
  rewrite !of_nat_plus, of_nat_0. ring.
Qed.

(** C3. For every 5-element list of non-negative integer star counts whose
    total is positive, [mean_stars] returns the sum over i = 0..4 of
    starCounts[i] * (5 - i), divided by the total; when the total is zero
    or the list does not have 5 elements it returns the sentinel 0. *)
Theorem mean_stars_spec (starCounts : list nat) :
  let revs := counts starCounts in
  let total := list_sum starCounts in
  sumArray revs = of_nat total /\
  (List.length starCounts = 5%nat -> (0 < total)%nat ->
   mean_stars revs
   = sum_f_R0 (fun i => of_nat (nth i starCounts 0%nat) * (5 - INR i)) 4
     / of_nat total) /\
  (total = 0%nat \/ List.length starCounts <> 5%nat -> mean_stars revs = 0).
Proof.
  intros revs total.
  split; [apply sumArray_counts |].
  split.
  - intros Hlen Hpos.
    destruct (length5 starCounts Hlen) as (a & b & c & d & e & ->).
    pose proof (of_nat_pos Hpos) as Htotal.
    unfold revs, total in *.
    rewrite list_sum5 in *. rewrite counts5.
    rewrite mean_stars5 by lra.
    f_equal. cbn [sum_f_R0 nth INR]. ring.
  - intros Hcase. apply mean_stars_zero.
    destruct Hcase as [Hzero | Hlen].
    + right. unfold revs. rewrite sumArray_counts.
      fold total. rewrite Hzero. reflexivity.
    + left. unfold revs, counts. rewrite length_map. exact Hlen.
Qed.

(** C4. For every 5-element list of non-negative integer star counts,
    [standard_dev_stars] returns
    sqrt(sum over i of starCounts[i] * (starValue_i - mean)^2 / (total - 1)),
    with starValue_i = 5 - i, when total > 1, and 0 when total <= 1;
    [getMeanAndSE] returns the mean of [mean_stars] and the standard error
    stdev / sqrt(total) when total > 0, and 0 otherwise. *)
Theorem stdev_and_se_spec (starCounts : list nat)
    (Hlen : List.length starCounts = 5%nat) :
  let revs := counts starCounts in
  let total := list_sum starCounts in
  (forall mean : R, (1 < total)%nat ->
     standard_dev_stars revs mean
     = sqrt (sum_f_R0 (fun i => of_nat (nth i starCounts 0%nat)
                                * ((5 - INR i) - mean) ^ 2) 4
             / (of_nat total - 1))) /\
  (forall mean : R, (total <= 1)%nat -> standard_dev_stars revs mean = 0) /\
  mu (getMeanAndSE revs) = mean_stars revs /\
  ((0 < total)%nat ->
     se (getMeanAndSE revs)
     = standard_dev_stars revs (mean_stars revs) / sqrt (of_nat total)) /\
  (total = 0%nat -> se (getMeanAndSE revs) = 0).
Proof.
  intros revs total.
  assert (Hsum : sumArray revs = of_nat total) by apply sumArray_counts.
  split; [| split; [| split; [| split]]].
  - intros mean Hgt.
    destruct (length5 starCounts Hlen) as (a & b & c & d & e & ->).
    assert (Htotal : 1 < of_nat total).
    { change 1 with (@of_nat R _ 1). apply of_nat_lt. exact Hgt. }
    unfold revs, total in *.
    rewrite list_sum5 in *. rewrite counts5.
    rewrite standard_dev_stars5 by lra.
    f_equal. f_equal. cbn [sum_f_R0 nth INR]. ring.
  - intros mean Hle. apply standard_dev_stars_zero. right.
    rewrite Hsum. change 1 with (@of_nat R _ 1). apply of_nat_le. exact Hle.
  - apply getMeanAndSE_mu.
  - intros Hpos. rewrite <- Hsum.
    apply (proj1 (getMeanAndSE_se revs)).
    rewrite Hsum. apply of_nat_pos. exact Hpos.
  - intros Hzero.
    apply (proj2 (getMeanAndSE_se revs)).
    rewrite Hsum, Hzero, of_nat_0. lra.
Qed.

Lemma k_z_score_star : @k_z_score R _ = 1.96.
Proof. unfold k_z_score. real_ops. lra. Qed.

Lemma quotient_between (x t lo hi : R) :
  0 < t -> lo * t <= x -> x <= hi * t -> lo <= x / t <= hi.
Proof.
  intros Ht Hlo Hhi.
  assert (Hinv : 0 < / t) by (apply Rinv_0_lt_compat; exact Ht).
  assert (Hq : x / t * t = x) by (field; lra).
  split.
  - apply Rmult_le_reg_r with (r := t); [exact Ht | lra].
  - apply Rmult_le_reg_r with (r := t); [exact Ht | lra].
Qed.

(** With at least one review the mean lies on the star scale. *)
Lemma mean_stars_range (starCounts : list nat) :
  List.length starCounts = 5%nat -> (0 < list_sum starCounts)%nat ->
  1 <= mean_stars (counts starCounts) <= 5.
Proof.
  intros Hlen Hpos.
  destruct (length5 starCounts Hlen) as (a & b & c & d & e & ->).
  pose proof (of_nat_pos Hpos) as Htotal.
  rewrite list_sum5 in Htotal. rewrite counts5.
  rewrite mean_stars5 by lra.
  pose proof (of_nat_nonneg a). pose proof (of_nat_nonneg b).
  pose proof (of_nat_nonneg c). pose proof (of_nat_nonneg d).
  pose proof (of_nat_nonneg e).
  apply quotient_between; lra.
Qed.

(** The rescaled values in terms of the mean and the standard error. *)
Lemma rescaled_values (revs : list R) :
  estimatedConfidencePercent revs = percent (mean_stars revs) /\
  lowerBoundPercent revs
  = percent (mean_stars revs - 1.96 * se (getMeanAndSE revs)) /\
  upperBoundPercent revs
  = percent (mean_stars revs + 1.96 * se (getMeanAndSE revs)) /\
  displayLowerBound revs = Rmax 0 (lowerBoundPercent revs) /\
  displayUpperBound revs = Rmin 100 (upperBoundPercent revs).
Proof.
  unfold displayLowerBound, displayUpperBound, estimatedConfidencePercent,
    lowerBoundPercent, upperBoundPercent, confidenceIntervalStars,
    get_confidence_int, meanStarRating, seStarRating, percent.
  rewrite k_z_score_star, getMeanAndSE_mu.
  cbn [fst snd]. real_ops.
  repeat split; f_equal; f_equal; lra.
Qed.

Lemma display_bounds (starCounts : list nat) :
  List.length starCounts = 5%nat -> (0 < list_sum starCounts)%nat ->
  let revs := counts starCounts in
  0 <= estimatedConfidencePercent revs <= 100 /\
  lowerBoundPercent revs <= estimatedConfidencePercent revs /\
  estimatedConfidencePercent revs <= upperBoundPercent revs.
Proof.
  intros Hlen Hpos revs.
  destruct (rescaled_values revs) as (-> & -> & -> & _ & _).
  pose proof (mean_stars_range starCounts Hlen Hpos) as Hmean. fold revs in Hmean.
  pose proof (getMeanAndSE_se_nonneg revs) as Hse.
  unfold percent. repeat split; lra.
Qed.

(** On data that passes the handler's test the computed figures are shown. *)
Lemma checkConfidence_computes (d : ExtractedData R) (count : R) (revs : list R) :
  JS.truthy_string (placeName d) = true ->
  reviewsCount d = JS.Value count ->
  starCounts d = Some revs ->
  List.length revs = 5%nat ->
  sumArray revs <> 0 ->
  checkConfidence (Some d)
  = Result {| shown_mean := meanStarRating revs;
              shown_interval := confidenceIntervalStars revs;
              shown_confidence := estimatedConfidencePercent revs;
              shown_lower := displayLowerBound revs;
              shown_upper := displayUpperBound revs |}.
Proof.
  intros Hname Hcount Hstars Hlen Hsum.
  unfold checkConfidence, not_enough.
  rewrite Hname, Hstars, Hcount.
  cbn [JS.not_null JS.is_absent andb JS.deref JS.read JS.bind JS.try_catch].
  real_ops.
  destruct (Req_dec_T (sumArray revs) 0) as [Heq | _]; [contradiction |].
  rewrite Hlen. reflexivity.
Qed.



(** In exact arithmetic the other side of each bound needs no clamp: on star
    counts that pass the handler's test the displayed bounds are the
    rescaled ones restricted to [0,100]. *)
Lemma one_sided_clamps_suffice (starCounts : list nat) :
  List.length starCounts = 5%nat -> (0 < list_sum starCounts)%nat ->
  let revs := counts starCounts in
  displayLowerBound revs = clamp (lowerBoundPercent revs) /\
  displayUpperBound revs = clamp (upperBoundPercent revs).
Proof.
  intros Hlen Hpos revs.
  pose proof (display_bounds starCounts Hlen Hpos) as (Hpoint & Hlo & Hhi).
  fold revs in Hpoint, Hlo, Hhi.
  destruct (rescaled_values revs) as (_ & _ & _ & -> & ->).
  unfold clamp. split.
  - rewrite Rmin_right; [reflexivity |].
    apply Rmax_lub; lra.
  - rewrite (Rmax_right 0 (upperBoundPercent revs)) by lra. reflexivity.
Qed.

End StarResults.

(** ** Data that does not allow an estimate *)

Section StarCountShape.
Context {num : Type} `{Number num} `{Rounding num}.
Import Part000.

Lemma push_counts_five (reviewsCount totalPercentageSum : num)
    (starPercentages : list num) :
  exists a b c d e,
    push_counts reviewsCount starPercentages totalPercentageSum = [a; b; c; d; e].
Proof.
  unfold push_counts. cbn [seq fold_left app].
  repeat eexists.
Qed.

Lemma estimate_starCounts_five (reviewsCount : num) (starPercentages : list num) :
  exists a b c d e,
    estimate_starCounts reviewsCount starPercentages = [a; b; c; d; e].
Proof.
  unfold estimate_starCounts.
  destruct ((lit 0 <? reviewsCount)%num && (List.length starPercentages =? 5)%nat).
  - cbv zeta. destruct (lit 0 <? sumArray starPercentages)%num.
    + apply push_counts_five.
    + repeat eexists.
  - repeat eexists.
Qed.

End StarCountShape.

Section InsufficientData.
Import Part000.
Local Open Scope string_scope.

(** An array of the wrong length, or one that sums to zero, is reported as
    not enough data. *)
Lemma checkConfidence_not_enough (d : ExtractedData R) (count : R) (revs : list R) :
  JS.truthy_string (placeName d) = true ->
  reviewsCount d = JS.Value count ->
  starCounts d = Some revs ->
  List.length revs <> 5%nat \/ sumArray revs = 0 ->
  checkConfidence (Some d) = NotEnoughData.
Proof.
  intros Hname Hcount Hstars Hcase.
  unfold checkConfidence, not_enough.
  rewrite Hname, Hstars, Hcount.
  cbn [JS.not_null JS.is_absent andb JS.deref JS.read JS.bind JS.try_catch].
  real_ops.
  destruct (Req_dec_T (sumArray revs) 0) as [Heq | Hne]; [reflexivity |].
  destruct Hcase as [Hlen | Hsum]; [| contradiction].
  apply Nat.eqb_neq in Hlen. rewrite Hlen. reflexivity.
Qed.

End InsufficientData.

Section InsufficientDataAnyNumber.
Context {num : Type} `{Number num} `{Rounding num}.
Import Part000.


End InsufficientDataAnyNumber.

(** ** The two variants of the statistical functions *)

Section Variants.
Context {num : Type} `{Number num}.

(** C10. The statistical functions that [part_000] and [part_001] both
    define, [mean_stars], [standard_dev_stars], [sumArray], [getMeanAndSE]
    and [get_confidence_int], return the same result on every input. *)
Theorem variants_agree (revs : list num) (mu se k : num) :
  Part000.sumArray revs = Part001.sumArray revs /\
  Part000.mean_stars revs = Part001.mean_stars revs /\
  Part000.standard_dev_stars revs mu = Part001.standard_dev_stars revs mu /\
  Part000.mu (Part000.getMeanAndSE revs) = Part001.mu (Part001.getMeanAndSE revs) /\
  Part000.se (Part000.getMeanAndSE revs) = Part001.se (Part001.getMeanAndSE revs) /\
  Part000.get_confidence_int mu se k = Part001.get_confidence_int mu se k.
Proof. repeat split; reflexivity. Qed.

End Variants.

(** ** Concrete inputs *)

Section Instances.
Local Open Scope string_scope.

Lemma GenericProfile_valid : valid_profile GenericProfile.
Proof.
  unfold valid_profile, GenericProfile.
  cbn [ConfInt.maxReviews ConfInt.weight ConfInt.baseUncertaintyFactor].
  real_ops. lra.
Qed.

(** 250 reviews under the Generic profile. *)
Lemma aggregate_bounds_witness :
  valid_profile GenericProfile /\
  0 <= ConfInt.lowerBound GenericProfile (of_nat 250) /\
  ConfInt.lowerBound GenericProfile (of_nat 250)
    <= ConfInt.mu_confidence_score GenericProfile (of_nat 250) /\
  ConfInt.mu_confidence_score GenericProfile (of_nat 250)
    <= ConfInt.upperBound GenericProfile (of_nat 250) /\
  ConfInt.upperBound GenericProfile (of_nat 250) <= 100.
Proof.
  split; [exact GenericProfile_valid |].
  apply (aggregate_bounds (cfg := GenericProfile) 250 GenericProfile_valid).
Defined.






Lemma stdev_and_se_spec_witness :
  List.length [5; 5; 0; 0; 0]%nat = 5%nat /\
  Part000.mu (Part000.getMeanAndSE (counts [5; 5; 0; 0; 0]%nat))
  = Part000.mean_stars (counts [5; 5; 0; 0; 0]%nat).
Proof.
  assert (Hlen : List.length [5; 5; 0; 0; 0]%nat = 5%nat) by reflexivity.
  split; [exact Hlen |].
  destruct (stdev_and_se_spec [5; 5; 0; 0; 0]%nat Hlen) as (_ & _ & Hmu & _).
  exact Hmu.
Defined.

(** The same data over exact arithmetic: the mean is 4.5 stars, which is
    87.5 on the percentage scale. *)
Example five_and_four_stars_mean :
  Part000.mean_stars (counts [5; 5; 0; 0; 0]%nat) = 4.5 /\
  Part000.estimatedConfidencePercent (counts [5; 5; 0; 0; 0]%nat) = 87.5.
Proof.
  assert (Hmean : Part000.mean_stars (counts [5; 5; 0; 0; 0]%nat) = 4.5).
  { rewrite counts5, mean_stars5; unfold of_nat; real_ops;
      cbn [Z.of_nat Pos.of_succ_nat Pos.succ]; lra. }
  split; [exact Hmean |].
  destruct (rescaled_values (counts [5; 5; 0; 0; 0]%nat)) as (-> & _).
  rewrite Hmean. unfold percent. lra.
Qed.

End Instances.

(** ** The same definitions run in binary64 *)

Section Binary64.
Local Open Scope string_scope.

(** Ten 5-star reviews: mean 5, no dispersion, 100 percent. *)
Example ten_five_stars :
  Part000.checkConfidence (Some (stars [10; 0; 0; 0; 0]%Z))
  = Part000.Result {| Part000.shown_mean := lit 5;
                      Part000.shown_interval := (lit 5, lit 5);
                      Part000.shown_confidence := lit 100;
                      Part000.shown_lower := lit 100;
                      Part000.shown_upper := lit 100 |}.
Proof. vm_compute. reflexivity. Qed.

(** Ten 1-star reviews: mean 1, 0 percent. *)
Example ten_one_stars :
  Part000.checkConfidence (Some (stars [0; 0; 0; 0; 10]%Z))
  = Part000.Result {| Part000.shown_mean := lit 1;
                      Part000.shown_interval := (lit 1, lit 1);
                      Part000.shown_confidence := lit 0;
                      Part000.shown_lower := lit 0;
                      Part000.shown_upper := lit 0 |}.
Proof. vm_compute. reflexivity. Qed.

(** Five 5-star and five 4-star reviews. *)
Example five_and_four_stars :
  let revs := map of_Z [5; 5; 0; 0; 0]%Z in
  Part000.mean_stars revs = lit 4.5 /\
  within 0.526 0.528 (Part000.standard_dev_stars revs (Part000.mean_stars revs)) = true /\
  within 0.1666 0.1668 (Part000.seStarRating revs) = true /\
  within 4.173 4.174 (fst (Part000.confidenceIntervalStars revs)) = true /\
  within 4.826 4.827 (snd (Part000.confidenceIntervalStars revs)) = true /\
  within 79.3 79.4 (Part000.displayLowerBound revs) = true /\
  within 95.6 95.7 (Part000.displayUpperBound revs) = true.
Proof. vm_compute. repeat split. Qed.

Example no_stars :
  Part000.checkConfidence (Some (stars [0; 0; 0; 0; 0]%Z)) = Part000.NotEnoughData.
Proof. vm_compute. reflexivity. Qed.

Example three_buckets :
  Part000.checkConfidence (Some (stars [1; 2; 3]%Z)) = Part000.NotEnoughData.
Proof. vm_compute. reflexivity. Qed.

(** "Cafe" precedes "Park" in the table. *)
Example park_cafe :
  snd (@ConfInt.selectedCategoryConfig float _ _ "Coffee shop" "Park Cafe") = "Cafe".
Proof. vm_compute. reflexivity. Qed.

Example bakery_is_generic :
  @ConfInt.selectedCategoryConfig float _ _ "Bakery" "Zed"
  = (Some GenericProfile, "Generic").
Proof. vm_compute. reflexivity. Qed.

(** Letter case plays no part. *)
Example mixed_case :
  snd (@ConfInt.selectedCategoryConfig float _ _ "COFFEE shop" "park CaFe") = "Cafe" /\
  snd (@ConfInt.selectedCategoryConfig float _ _ "financial" "First National BANK") = "Bank".
Proof. vm_compute. split; reflexivity. Qed.

(** Beyond ASCII the outcome follows the browser's case mapping: with a
    mapping that takes the Kelvin sign to [k], as the browser's does, a
    place name ending in that sign after "PAR" is a park; with one that
    leaves it alone it is not. *)
Example kelvin_sign_park :
  snd (@ConfInt.selectedCategoryConfig float _ Kelvin_aware
         "Unknown" ("PAR" ++ kelvin_sign)) = "Park" /\
  snd (@ConfInt.selectedCategoryConfig float _ JS.ASCII_only
         "Unknown" ("PAR" ++ kelvin_sign)) = "Generic".
Proof. vm_compute. split; reflexivity. Qed.

(** 120 reviews of a bank: 12 percent. *)
Example bank_120_reviews :
  match ConfInt.checkConfidence
          (Some {| ConfInt.placeName := Some "First National Bank";
                   ConfInt.reviewsCount := JS.Value (of_Z 120);
                   ConfInt.category := "Financial institution" |}) with
  | ConfInt.Result r =>
      String.eqb (ConfInt.shown_match r) "Bank"
      && within 12 12 (ConfInt.shown_confidence r)
      && within 9.50 9.51 (ConfInt.shown_lower r)
      && within 14.49 14.50 (ConfInt.shown_upper r)
  | _ => false
  end = true.
Proof. vm_compute. reflexivity. Qed.

(** For every profile of the table and every review count up to 20000, twice
    the largest maxReviews, the running estimator satisfies what C1, C8 and
    C9 say, with the plateau as computed. *)
Example everyday_counts_binary64 :
  forallb (fun entry => forallb (aggregate_claims_at (snd entry)) (up_to 20000))
          ConfInt.categoryConfigs
  = true.
Proof. vm_compute. reflexivity. Qed.

(** For every list of five star counts of at most 7 each that do not all
    vanish, the running estimator satisfies what C2 says. *)
Example small_star_counts_binary64 :
  forallb star_claims_at (star_counts_up_to 7) = true.
Proof. vm_compute. reflexivity. Qed.

(** Up to 5000 reviews that all give the same rating: the mean is that
    rating, the standard error is 0 and the interval is the point. *)
Example unanimous_binary64 :
  forallb (fun i => forallb (unanimous_claims_at i) (count_up 1 5000)) (seq 0 5)
  = true.
Proof. vm_compute. reflexivity. Qed.

(** *** Where binary64 departs from exact arithmetic *)





(** At everyday counts the order is strict in binary64 as well. *)
Example binary64_standard_error_decreases :
  (ConfInt.se (@GenericProfile float _) (of_Z 251)
   <? ConfInt.se (@GenericProfile float _) (of_Z 250))%num = true.
Proof. vm_compute. reflexivity. Qed.

End Binary64.

(** * Further properties of the code around the estimators *)

(** ** Estimating star counts from the bar widths *)

Section ExtractedStarCounts.
Context {num : Type} `{Number num} `{Rounding num}.
Import Part000.

(** X1. What the handler does with the object the content script returns: the
    array of star counts is present and has five elements whatever the page
    contained, so only the sum decides; neither the catch block nor the
    "could not extract" branch can be reached. *)
Theorem checkConfidence_on_extracted (name : option string)
    (found : option num) (category : string) (starPercentages : list num) :
  let reviewsCount := match found with None => lit 0 | Some count => count end in
  let starCounts := estimate_starCounts reviewsCount starPercentages in
  List.length starCounts = 5%nat /\
  checkConfidence
    (Some (extractGoogleMapsReviewData name found category starPercentages))
  = if JS.truthy_string name then
      if (sumArray starCounts === lit 0)%num then NotEnoughData
      else Result {| shown_mean := meanStarRating starCounts;
                     shown_interval := confidenceIntervalStars starCounts;
                     shown_confidence := estimatedConfidencePercent starCounts;
                     shown_lower := displayLowerBound starCounts;
                     shown_upper := displayUpperBound starCounts |}
    else NoPlaceName.
Proof.
  intros reviewsCount starCounts.
  destruct (estimate_starCounts_five reviewsCount starPercentages)
    as (a & b & c & d & e & Hfive).
  fold starCounts in Hfive.
  split; [rewrite Hfive; reflexivity |].
  unfold checkConfidence, extractGoogleMapsReviewData, not_enough.
  cbn [placeName Part000.reviewsCount Part000.starCounts JS.not_null
       JS.is_absent negb andb JS.deref JS.read JS.bind].
  fold reviewsCount. fold starCounts.
  destruct (JS.truthy_string name); cbn [andb negb JS.try_catch]; [| reflexivity].
  destruct (sumArray starCounts === lit 0)%num;
    cbn [JS.read JS.bind JS.try_catch]; [reflexivity |].
  assert (Hlen : (List.length starCounts =? 5)%nat = true)
    by (rewrite Hfive; reflexivity).
  rewrite Hlen. reflexivity.
Qed.

End ExtractedStarCounts.

Section StarCountAccuracy.
Import Part000.

Lemma Math_round_near (x : R) : x - / 2 < Math_round x <= x + / 2.
Proof.
  cbn [Math_round R_Rounding].
  destruct (base_Int_part (x + / 2)) as [Hle Hgt].
  split; lra.
Qed.

Lemma Math_round_count (x : R) : 0 <= x -> exists k : nat, Math_round x = of_nat k.
Proof.
  intros Hx.
  destruct (Math_round_near x) as [Hlo _].
  cbn [Math_round R_Rounding] in *.
  set (z := Int_part (x + / 2)) in *.
  assert (Hz : (0 <= z)%Z).
  { assert (Hlt : IZR (-1) < IZR z) by lra.
    apply lt_IZR in Hlt. lia. }
  exists (Z.to_nat z). unfold of_nat. real_ops.
  rewrite Z2Nat.id by exact Hz. reflexivity.
Qed.

Lemma estimate_starCounts5 (n a b c d e : R) :
  0 < n -> 0 < a + b + c + d + e ->
  let total := a + b + c + d + e in
  estimate_starCounts n [a; b; c; d; e]
  = [Math_round (n * (a / total)); Math_round (n * (b / total));
     Math_round (n * (c / total)); Math_round (n * (d / total));
     Math_round (n * (e / total))].
Proof.
  intros Hn Htotal total.
  unfold estimate_starCounts, push_counts.
  rewrite sumArray5. fold total.
  cbn [List.length Nat.eqb seq fold_left app at_index nth].
  real_ops.
  destruct (Rlt_dec 0 n) as [_ | Hno]; [| contradiction].
  destruct (Rlt_dec 0 total) as [_ | Hno]; [| contradiction].
  reflexivity.
Qed.

Lemma of_nat_inj_le (n m : nat) : @of_nat R _ n <= of_nat m -> (n <= m)%nat.
Proof. unfold of_nat; real_ops. intros Hle. apply le_IZR in Hle. lia. Qed.

Lemma of_nat_inj_lt (n m : nat) : @of_nat R _ n < of_nat m -> (n < m)%nat.
Proof. unfold of_nat; real_ops. intros Hlt. apply lt_IZR in Hlt. lia. Qed.

(** The five estimated counts, written out. *)
Lemma estimate_starCounts_rounded (reviewsCount : nat) (a b c d e : R) :
  (0 < reviewsCount)%nat ->
  0 <= a -> 0 <= b -> 0 <= c -> 0 <= d -> 0 <= e ->
  0 < a + b + c + d + e ->
  let n := @of_nat R _ reviewsCount in
  let total := a + b + c + d + e in
  exists ka kb kc kd ke : nat,
    estimate_starCounts n [a; b; c; d; e] = counts [ka; kb; kc; kd; ke] /\
    (n * (a / total) - / 2 < of_nat ka <= n * (a / total) + / 2) /\
    (n * (b / total) - / 2 < of_nat kb <= n * (b / total) + / 2) /\
    (n * (c / total) - / 2 < of_nat kc <= n * (c / total) + / 2) /\
    (n * (d / total) - / 2 < of_nat kd <= n * (d / total) + / 2) /\
    (n * (e / total) - / 2 < of_nat ke <= n * (e / total) + / 2) /\
    (reviewsCount <= list_sum [ka; kb; kc; kd; ke] + 2)%nat /\
    (list_sum [ka; kb; kc; kd; ke] <= reviewsCount + 2)%nat.
Proof.
  intros Hcount Ha Hb Hc Hd He Hsum n total.
  assert (Hn : 0 < n) by (apply of_nat_pos; exact Hcount).
  assert (Hinv : 0 < / total) by (apply Rinv_0_lt_compat; exact Hsum).
  assert (Hshare : forall p, 0 <= p -> 0 <= n * (p / total)).
  { intros p Hp. apply Rmult_le_pos; [lra |].
    apply Rmult_le_pos; lra. }
  destruct (Math_round_count (Hshare a Ha)) as [ka Hka].
  destruct (Math_round_count (Hshare b Hb)) as [kb Hkb].
  destruct (Math_round_count (Hshare c Hc)) as [kc Hkc].
  destruct (Math_round_count (Hshare d Hd)) as [kd Hkd].
  destruct (Math_round_count (Hshare e He)) as [ke Hke].
  pose proof (Math_round_near (n * (a / total))) as Hra.
  pose proof (Math_round_near (n * (b / total))) as Hrb.
  pose proof (Math_round_near (n * (c / total))) as Hrc.
  pose proof (Math_round_near (n * (d / total))) as Hrd.
  pose proof (Math_round_near (n * (e / total))) as Hre.
  rewrite Hka in Hra. rewrite Hkb in Hrb. rewrite Hkc in Hrc.
  rewrite Hkd in Hrd. rewrite Hke in Hre.
  exists ka, kb, kc, kd, ke.
  split.
  { unfold n. rewrite estimate_starCounts5 by assumption.
    fold total. fold n. rewrite Hka, Hkb, Hkc, Hkd, Hke. reflexivity. }
  do 5 (split; [assumption |]).
  assert (Hall : n * (a / total) + n * (b / total) + n * (c / total)
                 + n * (d / total) + n * (e / total) = n).
  { unfold total. field. unfold total in Hsum. lra. }
  pose proof (list_sum5 ka kb kc kd ke) as Hks.
  split.
  - apply Nat.lt_succ_r. apply of_nat_inj_lt.
    replace (S (list_sum [ka; kb; kc; kd; ke] + 2))
      with (list_sum [ka; kb; kc; kd; ke] + 3)%nat by lia.
    rewrite of_nat_plus, Hks. fold n.
    change (@of_nat R _ 3) with 3. lra.
  - apply Nat.lt_succ_r. apply of_nat_inj_lt.
    replace (S (reviewsCount + 2)) with (reviewsCount + 3)%nat by lia.
    rewrite of_nat_plus, Hks. fold n.
    change (@of_nat R _ 3) with 3. lra.
Qed.

Lemma Forall5 (P : R -> Prop) (a b c d e : R) :
  Forall P [a; b; c; d; e] -> P a /\ P b /\ P c /\ P d /\ P e.
Proof.
  intros Hall.
  repeat (apply Forall_cons_iff in Hall; destruct Hall as [? Hall]).
  auto.
Qed.

(** X2. The estimated counts are what rounding the proportional shares gives:
    each is a natural number within one half of its share of the review
    count, and together they miss the review count by at most 2. *)
Theorem estimate_starCounts_accuracy (reviewsCount : nat) (starPercentages : list R)
    (Hcount : (0 < reviewsCount)%nat)
    (Hfive : List.length starPercentages = 5%nat)
    (Hnonneg : Forall (fun p => 0 <= p) starPercentages)
    (Hsum : 0 < sumArray starPercentages) :
  exists starCounts : list nat,
    estimate_starCounts (of_nat reviewsCount) starPercentages = counts starCounts /\
    List.length starCounts = 5%nat /\
    (forall i : nat, (i < 5)%nat ->
       Rabs (of_nat (nth i starCounts 0%nat)
             - of_nat reviewsCount * nth i starPercentages 0 / sumArray starPercentages)
       <= / 2) /\
    (reviewsCount <= list_sum starCounts + 2)%nat /\
    (list_sum starCounts <= reviewsCount + 2)%nat.
Proof.
  destruct (length5 starPercentages Hfive) as (a & b & c & d & e & ->).
  rewrite sumArray5 in *.
  destruct (Forall5 Hnonneg) as (Ha & Hb & Hc & Hd & He).
  destruct (estimate_starCounts_rounded Hcount Ha Hb Hc Hd He Hsum)
    as (ka & kb & kc & kd & ke & Heq & Hra & Hrb & Hrc & Hrd & Hre & Hlow & Hhigh).
  exists [ka; kb; kc; kd; ke].
  split; [exact Heq |].
  split; [reflexivity |].
  split; [| split; assumption].
  intros i Hi.
  assert (Hform : forall p, of_nat reviewsCount * p / (a + b + c + d + e)
                            = of_nat reviewsCount * (p / (a + b + c + d + e)))
    by (intros p; unfold Rdiv; ring).
  destruct i as [| [| [| [| [| i]]]]]; [| | | | | lia];
    cbn [nth]; rewrite Hform; apply Rabs_le; lra.
Qed.

End StarCountAccuracy.

Section StarCountConsequences.
Import Part000.
Local Open Scope string_scope.

Lemma estimate_starCounts_zeros (reviewsCount : R) (starPercentages : list R) :
  reviewsCount <= 0 \/ List.length starPercentages <> 5%nat
  \/ sumArray starPercentages <= 0 ->
  estimate_starCounts reviewsCount starPercentages = counts [0; 0; 0; 0; 0]%nat.
Proof.
  intros Hcase. unfold estimate_starCounts. real_ops.
  destruct (Rlt_dec 0 reviewsCount) as [Hn | Hn]; cbn [andb]; [| reflexivity].
  destruct (Nat.eqb_spec (List.length starPercentages) 5) as [Hlen | Hlen];
    [| reflexivity].
  destruct (Rlt_dec 0 (sumArray starPercentages)) as [Hs | Hs]; [| reflexivity].
  destruct Hcase as [H1 | [H2 | H3]]; [lra | contradiction | lra].
Qed.

(** X3. Without a review count on the page (it then defaults to 0), without
    five bars, or with bars whose widths add up to nothing, the content
    script hands over five zeros, and the handler reports that there is not
    enough data. *)
Theorem extracted_without_distribution (name category : string)
    (found : option R) (starPercentages : list R)
    (Hname : name <> "")
    (Hcase : found = None
             \/ (exists count, found = Some count /\ count <= 0)
             \/ List.length starPercentages <> 5%nat
             \/ sumArray starPercentages <= 0) :
  starCounts (extractGoogleMapsReviewData (Some name) found category starPercentages)
  = Some (counts [0; 0; 0; 0; 0]%nat) /\
  checkConfidence
    (Some (extractGoogleMapsReviewData (Some name) found category starPercentages))
  = NotEnoughData.
Proof.
  assert (Hzeros :
    starCounts (extractGoogleMapsReviewData (Some name) found category starPercentages)
    = Some (counts [0; 0; 0; 0; 0]%nat)).
  { unfold extractGoogleMapsReviewData. cbn [starCounts]. f_equal.
    apply estimate_starCounts_zeros.
    destruct Hcase as [-> | [(count & -> & Hle) | [Hlen | Hsum]]].
    - left. real_ops. lra.
    - left. exact Hle.
    - right. left. exact Hlen.
    - right. right. exact Hsum. }
  split; [exact Hzeros |].
  apply checkConfidence_not_enough
    with (count := match found with None => lit 0 | Some count => count end)
         (revs := counts [0; 0; 0; 0; 0]%nat).
  - cbn [placeName extractGoogleMapsReviewData JS.truthy_string].
    destruct (String.eqb_spec name "") as [Heq | _]; [contradiction | reflexivity].
  - reflexivity.
  - exact Hzeros.
  - right. rewrite sumArray_counts. reflexivity.
Qed.

(** X4, in exact arithmetic.  From three reviews on, with five non-negative
    bar widths that do not all vanish, the estimated counts cannot all be
    zero: the handler shows an estimate, and it satisfies
    lower <= point <= upper within [0,100].  (In binary64 the order can fail
    for review counts beyond 2^53 / 5, where the weighted sum is rounded.) *)
Theorem extracted_with_distribution (name category : string)
    (reviewsCount : nat) (starPercentages : list R)
    (Hname : name <> "")
    (Hcount : (3 <= reviewsCount)%nat)
    (Hfive : List.length starPercentages = 5%nat)
    (Hnonneg : Forall (fun p => 0 <= p) starPercentages)
    (Hsum : 0 < sumArray starPercentages) :
  exists r,
    checkConfidence
      (Some (extractGoogleMapsReviewData (Some name) (Some (of_nat reviewsCount))
               category starPercentages))
    = Result r /\
    0 <= shown_lower r /\
    shown_lower r <= shown_confidence r /\
    shown_confidence r <= shown_upper r /\
    shown_upper r <= 100.
Proof.
  assert (Hpos : (0 < reviewsCount)%nat) by lia.
  destruct (length5 starPercentages Hfive) as (a & b & c & d & e & ->).
  rewrite sumArray5 in Hsum.
  destruct (Forall5 Hnonneg) as (Ha & Hb & Hc & Hd & He).
  destruct (estimate_starCounts_rounded Hpos Ha Hb Hc Hd He Hsum)
    as (ka & kb & kc & kd & ke & Hks & _ & _ & _ & _ & _ & Hlow & _).
  set (ks := [ka; kb; kc; kd; ke]) in *.
  assert (Hlen : List.length ks = 5%nat) by reflexivity.
  assert (Hsome : (0 < list_sum ks)%nat) by lia.
  eexists. split.
  - apply checkConfidence_computes
      with (count := @of_nat R _ reviewsCount) (revs := counts ks).
    + cbn [placeName extractGoogleMapsReviewData JS.truthy_string].
      destruct (String.eqb_spec name "") as [Heq | _]; [contradiction | reflexivity].
    + reflexivity.
    + unfold extractGoogleMapsReviewData. cbn [starCounts]. rewrite Hks. reflexivity.
    + unfold counts. rewrite length_map. exact Hlen.
    + rewrite sumArray_counts. pose proof (of_nat_pos Hsome). lra.
  - cbn [shown_lower shown_confidence shown_upper].
    pose proof (display_bounds ks Hlen Hsome) as (Hpoint & Hlo & Hhi).
    destruct (rescaled_values (counts ks)) as (_ & _ & _ & Hl & Hu).
    rewrite Hl, Hu.
    repeat split.
    + apply Rmax_l.
    + apply Rmax_lub; lra.
    + apply Rmin_glb; lra.
    + apply Rmin_l.
Qed.

End StarCountConsequences.

(** ** The two variants beyond their statistical functions *)

Section VariantHandlers.
Context {num : Type} `{Number num}.

(** The same answer of the content script, as each variant's handler
    receives it. *)
Definition as_part001 (d : Part000.ExtractedData num) : Part001.ExtractedData num :=
  {| Part001.placeName := Part000.placeName d;
     Part001.reviewsCount := Part000.reviewsCount d;
     Part001.category := Part000.category d;
     Part001.starCounts := Part000.starCounts d |}.

(** The same answer with the review count set. *)
Definition with_count (d : Part000.ExtractedData num) (count : num)
    : Part000.ExtractedData num :=
  {| Part000.placeName := Part000.placeName d;
     Part000.reviewsCount := JS.Value count;
     Part000.category := Part000.category d;
     Part000.starCounts := Part000.starCounts d |}.

(** What remains of the first variant's panel when only the confidence, its
    colour and its interval are kept. *)
Definition confidence_only (o : Part000.Outcome num) : Part001.Outcome num :=
  match o with
  | Part000.Result r =>
      Part001.Result
        {| Part001.shown_confidence := Part000.shown_confidence r;
           Part001.shown_color := Part000.getConfidenceColor (Part000.shown_confidence r);
           Part001.shown_lower := Part000.shown_lower r;
           Part001.shown_upper := Part000.shown_upper r |}
  | Part000.NotEnoughData => Part001.NotEnoughData
  | Part000.NoPlaceName => Part001.NoPlaceName
  | Part000.CouldNotExtract => Part001.CouldNotExtract
  | Part000.UnexpectedError => Part001.UnexpectedError
  end.

(** The one answer on which the two handlers differ: a place name together
    with an [undefined] review count. *)
Definition names_place_without_count (extractedData : option (Part000.ExtractedData num))
    : bool :=
  match extractedData with
  | Some d =>
      JS.truthy_string (Part000.placeName d)
      && match Part000.reviewsCount d with
         | JS.Undefined => true
         | _ => false
         end
  | None => false
  end.

Lemma handlers_agree_with_count (name : option string) (count : JS.nullable num)
    (category : string) (stars : option (list num)) :
  JS.truthy_string name = true ->
  count <> JS.Undefined ->
  Part001.checkConfidence
    (Some {| Part001.placeName := name; Part001.reviewsCount := count;
             Part001.category := category; Part001.starCounts := stars |})
  = confidence_only
      (Part000.checkConfidence
         (Some {| Part000.placeName := name; Part000.reviewsCount := count;
                  Part000.category := category; Part000.starCounts := stars |})).
Proof.
  intros Hname Hcount.
  unfold Part001.checkConfidence, Part000.checkConfidence,
    Part001.not_enough, Part000.not_enough.
  cbn [Part000.placeName Part000.reviewsCount Part000.starCounts
       Part001.placeName Part001.reviewsCount Part001.starCounts].
  rewrite Hname.
  destruct count as [| | count]; [contradiction | reflexivity |].
  cbn [JS.not_null andb].
  destruct stars as [arr |];
    cbn [JS.deref JS.read JS.bind JS.try_catch JS.is_absent]; [| reflexivity].
  change (Part001.sumArray arr) with (Part000.sumArray arr).
  destruct (Part000.sumArray arr === lit 0)%num;
    cbn [JS.read JS.bind JS.try_catch confidence_only]; [reflexivity |].
  destruct (negb (List.length arr =? 5)%nat);
    cbn [JS.read JS.bind JS.try_catch confidence_only]; reflexivity.
Qed.

(** X5.  The two handlers compared on every answer of the content script,
    present or not, complete or not.  Unless the answer names a place and
    leaves the review count [undefined], the handler of [part_001] ends in
    the same branch as the handler of [part_000] and, when an estimate is
    shown, shows the same confidence, colour and interval.  On a named
    place with an [undefined] count they part: [part_000] ends in its catch
    block, since its templates read [reviewsCount.toLocaleString], while
    [part_001], which never mentions the count, shows what [part_000] shows
    once a count is there. *)
Theorem handlers_agree (extractedData : option (Part000.ExtractedData num)) :
  if names_place_without_count extractedData then
    Part000.checkConfidence extractedData = Part000.UnexpectedError /\
    forall (d : Part000.ExtractedData num) (count : num),
      extractedData = Some d ->
      Part001.checkConfidence (Some (as_part001 d))
      = confidence_only (Part000.checkConfidence (Some (with_count d count)))
  else
    Part001.checkConfidence (option_map as_part001 extractedData)
    = confidence_only (Part000.checkConfidence extractedData).
Proof.
  destruct extractedData as [d |]; [| reflexivity].
  destruct d as [name count category stars].
  cbn [names_place_without_count Part000.placeName Part000.reviewsCount].
  destruct (JS.truthy_string name) eqn:Hname; cbn [andb].
  - destruct count as [| | count].
    + split.
      * unfold Part000.checkConfidence, Part000.not_enough.
        cbn [Part000.placeName Part000.reviewsCount Part000.starCounts].
        rewrite Hname. cbn [JS.not_null andb].
        destruct stars as [arr |];
          cbn [JS.deref JS.read JS.bind JS.try_catch JS.is_absent]; [| reflexivity].
        destruct (Part000.sumArray arr === lit 0)%num;
          cbn [JS.read JS.bind JS.try_catch]; [reflexivity |].
        destruct (negb (List.length arr =? 5)%nat);
          cbn [JS.deref JS.read JS.bind JS.try_catch]; reflexivity.
      * intros d count' Heq. injection Heq as <-.
        transitivity
          (Part001.checkConfidence
             (Some {| Part001.placeName := name;
                      Part001.reviewsCount := JS.Value count';
                      Part001.category := category;
                      Part001.starCounts := stars |})).
        { reflexivity. }
        apply (@handlers_agree_with_count name (JS.Value count') category stars Hname).
        discriminate.
    + cbn [option_map as_part001 Part000.placeName Part000.reviewsCount
           Part000.category Part000.starCounts].
      apply handlers_agree_with_count; [exact Hname | discriminate].
    + cbn [option_map as_part001 Part000.placeName Part000.reviewsCount
           Part000.category Part000.starCounts].
      apply handlers_agree_with_count; [exact Hname | discriminate].
  - unfold Part001.checkConfidence, Part000.checkConfidence.
    cbn [option_map as_part001 Part000.placeName Part000.reviewsCount
         Part001.placeName Part001.reviewsCount].
    rewrite Hname. reflexivity.
Qed.

End VariantHandlers.

(** ** The aggregate-count handler as a whole *)

Section AggregateHandler.
Context {num : Type} `{Number num} `{JS.Runtime}.
Import ConfInt.
Local Open Scope string_scope.

(** X6.  Which branch the handler takes, for every answer of the content
    script: no answer gives the insufficient-data message; a missing or
    empty place name the no-place-name message; a place name with a [null]
    review count the insufficient-data message; a place name with an
    [undefined] review count passes the guard and ends in the catch block,
    at [reviewsCount.toLocaleString]; and a place name with a count gives a
    result computed with an entry of the table.  An [undefined] count is
    the only way into the catch block. *)
Theorem checkConfidence_branches (extractedData : option (ExtractedData num)) :
  match extractedData with
  | None => checkConfidence extractedData = InsufficientData
  | Some d =>
      if JS.truthy_string (placeName d) then
        match reviewsCount d with
        | JS.Null => checkConfidence extractedData = InsufficientData
        | JS.Undefined => checkConfidence extractedData = UnexpectedError
        | JS.Value count =>
            exists name cfg key,
              placeName d = Some name /\
              selectedCategoryConfig (category d) name = (Some cfg, key) /\
              In (key, cfg) categoryConfigs /\
              checkConfidence extractedData
              = Result {| shown_place := name;
                          shown_category := category d;
                          shown_match := key;
                          shown_reviews := count;
                          shown_confidence := mu_confidence_score cfg count;
                          shown_lower := lowerBound cfg count;
                          shown_upper := upperBound cfg count |}
        end
      else checkConfidence extractedData = NoPlaceName
  end.
Proof.
  destruct extractedData as [d |]; [| reflexivity].
  unfold checkConfidence.
  destruct (JS.truthy_string (placeName d)) eqn:Hname; cbn [andb negb];
    [| reflexivity].
  destruct (placeName d) as [name |]; [| discriminate].
  destruct (reviewsCount d) as [| | count]; cbn [JS.not_null];
    [reflexivity | reflexivity |].
  destruct (selectedCategoryConfig_in_table (num := num) (category d) name)
    as (cfg & key & Hsel & Hin).
  exists name, cfg, key.
  repeat split; try assumption.
  cbn [JS.deref JS.read JS.bind]. rewrite Hsel. reflexivity.
Qed.

End AggregateHandler.

Section ZeroReviews.
Context `{JS.Runtime}.
Import ConfInt.
Local Open Scope string_scope.

Lemma estimate_at_zero (cfg : CategoryProfile R) :
  valid_profile cfg ->
  mu_confidence_score cfg 0 = 0 /\
  lowerBound cfg 0 = 0 /\
  upperBound cfg 0 = 39.2 * baseUncertaintyFactor cfg.
Proof.
  intros (HM & Hw & HU).
  assert (Hmu : mu_confidence_score cfg 0 = 0).
  { rewrite mu_confidence_score_eq, Rmin_left by lra. unfold Rdiv. ring. }
  assert (Hse : se cfg 0 = 20 * baseUncertaintyFactor cfg).
  { rewrite se_eq. replace (0 + 1) with 1 by ring. rewrite sqrt_1. field. }
  unfold lowerBound, upperBound.
  rewrite Hmu, Hse, k_z_score_eq. real_ops.
  repeat split.
  - apply Rmax_left. lra.
  - rewrite Rmin_right by lra. lra.
Qed.

(** X7. A place whose page shows a name but no review count is not reported as
    lacking data: the count defaults to 0 and the handler shows a confidence
    of 0 with the interval from 0 to 39.2 times the base uncertainty factor
    of the profile its name or category resolves to. *)
Theorem place_without_review_count (name category : string) (Hname : name <> "") :
  exists cfg key r,
    selectedCategoryConfig category name = (Some cfg, key) /\
    checkConfidence (Some (extractGoogleMapsPlaceData (Some name) None category))
    = Result r /\
    shown_match r = key /\
    shown_reviews r = 0 /\
    shown_confidence r = 0 /\
    shown_lower r = 0 /\
    shown_upper r = 39.2 * baseUncertaintyFactor cfg.
Proof.
  destruct (selectedCategoryConfig_in_table (num := R) category name)
    as (cfg & key & Hsel & Hin).
  destruct (estimate_at_zero (table_valid Hin)) as (Hmu & Hlo & Hhi).
  exists cfg, key. eexists.
  split; [exact Hsel |].
  split.
  - unfold checkConfidence, extractGoogleMapsPlaceData.
    cbn [placeName reviewsCount ConfInt.category JS.truthy_string JS.not_null].
    destruct (String.eqb_spec name "") as [Heq | _]; [contradiction |].
    cbn [negb andb JS.deref JS.read JS.bind]. rewrite Hsel.
    cbn [JS.deref JS.read JS.bind JS.try_catch]. reflexivity.
  - cbn [shown_match shown_reviews shown_confidence shown_lower shown_upper].
    real_ops. auto.
Qed.

End ZeroReviews.

(** ** The colour of the score *)

Section Colours.
Context `{JS.Runtime}.
Local Open Scope string_scope.

Lemma getConfidenceColor_cases (x : R) :
  (80 <= x /\ ConfInt.getConfidenceColor x = "#38a169") \/
  (50 <= x < 80 /\ ConfInt.getConfidenceColor x = "#d69e2e") \/
  (x < 50 /\ ConfInt.getConfidenceColor x = "#e53e3e").
Proof.
  unfold ConfInt.getConfidenceColor. real_ops.
  destruct (Rle_dec 80 x) as [H80 | H80].
  - left. split; [exact H80 | reflexivity].
  - destruct (Rle_dec 50 x) as [H50 | H50].
    + right. left. split; [lra | reflexivity].
    + right. right. split; [lra | reflexivity].
Qed.

Lemma table_weights (key : string) (cfg : ConfInt.CategoryProfile R) :
  In (key, cfg) ConfInt.categoryConfigs ->
  (In key ["Park"; "Bank"; "School"] -> ConfInt.weight cfg * 100 < 50) /\
  (In key ["Restaurant"; "Cafe"; "Hotel"] \/ ConfInt.weight cfg * 100 < 80).
Proof.
  intros Hin. cbn [In ConfInt.categoryConfigs] in Hin.
  repeat (destruct Hin as [Heq | Hin];
          [ injection Heq as <- <-; split;
            [ cbn [In]; intros Hkey;
              repeat (destruct Hkey as [Hkey | Hkey]; try discriminate Hkey);
              try contradiction; cbn [ConfInt.weight]; real_ops; lra
            | first [ left; cbn [In]; tauto
                    | right; cbn [ConfInt.weight]; real_ops; lra ] ] | ]).
  contradiction.
Qed.

(** X8. On the aggregate path the colour is bounded by the category: a place
    resolved as Park, Bank or School is always shown in red, only one
    resolved as Restaurant, Cafe or Hotel can be shown in green, and a place
    without reviews is red whatever its category. *)
Theorem colour_by_category (category placeName key : string)
    (cfg : ConfInt.CategoryProfile R) (reviewsCount : nat)
    (Hresolved : ConfInt.selectedCategoryConfig category placeName = (Some cfg, key)) :
  let colour :=
    ConfInt.getConfidenceColor (ConfInt.mu_confidence_score cfg (of_nat reviewsCount)) in
  (In key ["Park"; "Bank"; "School"] -> colour = "#e53e3e") /\
  (colour = "#38a169" -> In key ["Restaurant"; "Cafe"; "Hotel"]) /\
  (reviewsCount = 0%nat -> colour = "#e53e3e").
Proof.
  intros colour.
  destruct (selectedCategoryConfig_in_table (num := R) category placeName)
    as (cfg' & key' & Hsel & Hin).
  rewrite Hresolved in Hsel. injection Hsel as <- <-.
  pose proof (table_valid Hin) as Hvalid.
  pose proof (mu_confidence_score_bounds Hvalid (of_nat_nonneg reviewsCount))
    as [Hlo Hhi].
  destruct (table_weights Hin) as [Hred Hgreen].
  destruct (getConfidenceColor_cases
              (ConfInt.mu_confidence_score cfg (of_nat reviewsCount)))
    as [[Hx Hc] | [[Hx Hc] | [Hx Hc]]]; fold colour in Hc.
  - repeat split.
    + intros Hkey. specialize (Hred Hkey). lra.
    + intros _. destruct Hgreen as [Hkey | Hw]; [exact Hkey | lra].
    + intros ->. destruct (estimate_at_zero Hvalid) as (Hzero & _).
      change (@of_nat R _ 0) with 0 in Hx. lra.
  - repeat split.
    + intros Hkey. specialize (Hred Hkey). lra.
    + rewrite Hc. intros Habs. discriminate Habs.
    + intros ->. destruct (estimate_at_zero Hvalid) as (Hzero & _).
      change (@of_nat R _ 0) with 0 in Hx. lra.
  - repeat split; try (intros; exact Hc).
    rewrite Hc. intros Habs. discriminate Habs.
Qed.

(** X9. On the star path the colour depends on the mean rating alone: green
    from 4.2 stars, orange from 3 stars, red below. *)
Theorem colour_by_mean_rating (starCounts : list R) :
  let mean := Part000.meanStarRating starCounts in
  let colour :=
    Part000.getConfidenceColor (Part000.estimatedConfidencePercent starCounts) in
  (colour = "#38a169" <-> 4.2 <= mean) /\
  (colour = "#d69e2e" <-> 3 <= mean < 4.2) /\
  (colour = "#e53e3e" <-> mean < 3).
Proof.
  intros mean colour.
  assert (Hpercent : Part000.estimatedConfidencePercent starCounts = percent mean).
  { destruct (rescaled_values starCounts) as (Hp & _). exact Hp. }
  unfold colour, Part000.getConfidenceColor. rewrite Hpercent.
  unfold percent. real_ops.
  destruct (Rle_dec 80 ((mean - 1) / 4 * 100)) as [H80 | H80].
  - (split; [| split]); split; intros Hyp;
      try discriminate Hyp; try reflexivity; lra.
  - destruct (Rle_dec 50 ((mean - 1) / 4 * 100)) as [H50 | H50].
    + (split; [| split]); split; intros Hyp;
      try discriminate Hyp; try reflexivity; lra.
    + (split; [| split]); split; intros Hyp;
      try discriminate Hyp; try reflexivity; lra.
Qed.

End Colours.

(** ** Samples without spread *)

Section NoSpread.
Import Part000.

(** [c] reviews, all with [5 - i] stars. *)
Definition unanimous (i c : nat) : list nat :=
  map (fun j => if (j =? i)%nat then c else 0%nat) (seq 0 5).

Lemma zero_spread (a b c d e : R) :
  let m := mean_stars [a; b; c; d; e] in
  a * (5 - m) ^ 2 + b * (4 - m) ^ 2 + c * (3 - m) ^ 2
  + d * (2 - m) ^ 2 + e * (1 - m) ^ 2 = 0 ->
  se (getMeanAndSE [a; b; c; d; e]) = 0.
Proof.
  intros m Hzero.
  destruct (Rlt_dec 0 (sumArray [a; b; c; d; e])) as [Hpos | Hnpos].
  - rewrite (proj1 (getMeanAndSE_se _) Hpos). fold m.
    assert (Hdev : standard_dev_stars [a; b; c; d; e] m = 0).
    { destruct (Rle_dec (sumArray [a; b; c; d; e]) 1) as [Hle | Hgt].
      - apply standard_dev_stars_zero. right. exact Hle.
      - rewrite sumArray5 in Hgt.
        rewrite standard_dev_stars5 by lra.
        rewrite Hzero. unfold Rdiv. rewrite Rmult_0_l. apply sqrt_0. }
    rewrite Hdev. unfold Rdiv. apply Rmult_0_l.
  - apply (proj2 (getMeanAndSE_se _)). lra.
Qed.

Lemma collapsed_interval (revs : list R) :
  1 <= mean_stars revs <= 5 ->
  se (getMeanAndSE revs) = 0 ->
  seStarRating revs = 0 /\
  confidenceIntervalStars revs = (mean_stars revs, mean_stars revs) /\
  displayLowerBound revs = estimatedConfidencePercent revs /\
  displayUpperBound revs = estimatedConfidencePercent revs.
Proof.
  intros Hmean Hse.
  destruct (rescaled_values revs) as (Hp & Hl & Hu & Hdl & Hdu).
  rewrite Hdl, Hdu, Hl, Hu, Hp, Hse.
  split; [exact Hse |].
  split.
  { unfold confidenceIntervalStars, get_confidence_int, seStarRating, meanStarRating.
    rewrite Hse, getMeanAndSE_mu. real_ops. f_equal; ring. }
  replace (mean_stars revs - 1.96 * 0) with (mean_stars revs) by ring.
  replace (mean_stars revs + 1.96 * 0) with (mean_stars revs) by ring.
  unfold percent. split.
  - apply Rmax_right. lra.
  - apply Rmin_right. lra.
Qed.

(** X10, in exact arithmetic.  When all the reviews carry the same rating,
    and in particular when there is a single review, the mean is that
    rating, the standard error is 0, and the interval collapses onto the
    point estimate, which is 25 * (4 - i) for the rating 5 - i.  (Run in
    binary64 this is so for every count up to 5000, [unanimous_binary64];
    it is not for 1801439850948199 five-star reviews, whose weighted sum
    exceeds 2^53 and is rounded.) *)
Theorem unanimous_ratings (i c : nat) (Hi : (i < 5)%nat) (Hc : (0 < c)%nat) :
  let starCounts := counts (unanimous i c) in
  meanStarRating starCounts = 5 - INR i /\
  seStarRating starCounts = 0 /\
  confidenceIntervalStars starCounts = (5 - INR i, 5 - INR i) /\
  estimatedConfidencePercent starCounts = 25 * (4 - INR i) /\
  displayLowerBound starCounts = 25 * (4 - INR i) /\
  displayUpperBound starCounts = 25 * (4 - INR i).
Proof.
  intros starCounts.
  pose proof (of_nat_pos Hc) as HC.
  assert (Hmean : mean_stars starCounts = 5 - INR i).
  { unfold starCounts.
    destruct i as [| [| [| [| [| i]]]]]; [| | | | | lia];
      cbn [unanimous map seq Nat.eqb]; rewrite counts5, of_nat_0;
      rewrite mean_stars5 by lra; cbn [INR]; field; lra. }
  assert (Hse : se (getMeanAndSE starCounts) = 0).
  { unfold starCounts in *.
    destruct i as [| [| [| [| [| i]]]]]; [| | | | | lia];
      cbn [unanimous map seq Nat.eqb] in *; rewrite counts5, of_nat_0 in *;
      apply zero_spread; rewrite Hmean; cbn [INR]; ring. }
  assert (Hrange : 1 <= mean_stars starCounts <= 5).
  { rewrite Hmean.
    destruct i as [| [| [| [| [| i]]]]]; [| | | | | lia]; cbn [INR]; lra. }
  destruct (collapsed_interval starCounts Hrange Hse) as (H1 & H2 & H3 & H4).
  destruct (rescaled_values starCounts) as (Hp & _).
  assert (Hpoint : estimatedConfidencePercent starCounts = 25 * (4 - INR i)).
  { rewrite Hp, Hmean. unfold percent. field. }
  unfold meanStarRating. rewrite getMeanAndSE_mu.
  rewrite H2, H3, H4, Hpoint, Hmean.
  repeat split; assumption.
Qed.

End NoSpread.

(** ** The same distribution with more reviews *)

Section Scaling.
Import Part000.

(** The sum of squared deviations the standard deviation is built from. *)
Definition spread (a b c d e m : R) : R :=
  a * (5 - m) ^ 2 + b * (4 - m) ^ 2 + c * (3 - m) ^ 2
  + d * (2 - m) ^ 2 + e * (1 - m) ^ 2.

Lemma spread_nonneg (a b c d e m : R) :
  0 <= a -> 0 <= b -> 0 <= c -> 0 <= d -> 0 <= e -> 0 <= spread a b c d e m.
Proof.
  intros Ha Hb Hc Hd He. unfold spread.
  pose proof (pow2_ge_0 (5 - m)). pose proof (pow2_ge_0 (4 - m)).
  pose proof (pow2_ge_0 (3 - m)). pose proof (pow2_ge_0 (2 - m)).
  pose proof (pow2_ge_0 (1 - m)).
  repeat apply Rplus_le_le_0_compat; apply Rmult_le_pos; assumption.
Qed.

Lemma se5 (a b c d e : R) :
  1 < a + b + c + d + e ->
  let n := a + b + c + d + e in
  let m := mean_stars [a; b; c; d; e] in
  se (getMeanAndSE [a; b; c; d; e])
  = sqrt (spread a b c d e m / (n - 1)) / sqrt n.
Proof.
  intros Hn n m.
  assert (Hpos : 0 < sumArray [a; b; c; d; e]) by (rewrite sumArray5; lra).
  rewrite (proj1 (getMeanAndSE_se _) Hpos).
  rewrite sumArray5. fold n. fold m.
  rewrite standard_dev_stars5 by exact Hn.
  reflexivity.
Qed.

Lemma of_nat_mult (n m : nat) : @of_nat R _ (n * m) = of_nat n * of_nat m.
Proof. unfold of_nat; real_ops. rewrite Nat2Z.inj_mul, mult_IZR. reflexivity. Qed.

Lemma spread_of_single_review (a b c d e : nat) (k : R) :
  (a + b + c + d + e = 1)%nat -> 0 < k ->
  let A := k * of_nat a in
  let B := k * of_nat b in
  let C := k * of_nat c in
  let D := k * of_nat d in
  let E := k * of_nat e in
  spread A B C D E (mean_stars [A; B; C; D; E]) = 0.
Proof.
  intros Hone Hk A B C D E.
  assert (Hcases :
    ((a = 1 /\ b = 0 /\ c = 0 /\ d = 0 /\ e = 0) \/
     (a = 0 /\ b = 1 /\ c = 0 /\ d = 0 /\ e = 0) \/
     (a = 0 /\ b = 0 /\ c = 1 /\ d = 0 /\ e = 0) \/
     (a = 0 /\ b = 0 /\ c = 0 /\ d = 1 /\ e = 0) \/
     (a = 0 /\ b = 0 /\ c = 0 /\ d = 0 /\ e = 1))%nat) by lia.
  unfold A, B, C, D, E.
  destruct Hcases as [H | [H | [H | [H | H]]]];
    destruct H as (-> & -> & -> & -> & ->);
    rewrite ?of_nat_0; replace (@of_nat R _ 1) with 1 by reflexivity;
    rewrite mean_stars5 by lra; unfold spread; field; lra.
Qed.

(** X11, in exact arithmetic.  Multiplying every star count by the same
    factor [k >= 1] leaves the mean, and with it the point estimate,
    unchanged, and does not increase the standard error: more reviews of
    the same distribution never widen the interval.  (In binary64 the two
    means can differ in the last bits once a weighted sum exceeds 2^53.) *)
Theorem more_reviews_same_distribution (starCounts : list nat) (k : nat)
    (Hfive : List.length starCounts = 5%nat)
    (Hsome : (0 < list_sum starCounts)%nat)
    (Hk : (0 < k)%nat) :
  let scaled := counts (map (Nat.mul k) starCounts) in
  let original := counts starCounts in
  meanStarRating scaled = meanStarRating original /\
  estimatedConfidencePercent scaled = estimatedConfidencePercent original /\
  seStarRating scaled <= seStarRating original.
Proof.
  intros scaled original.
  destruct (length5 starCounts Hfive) as (a & b & c & d & e & ->).
  pose proof (of_nat_pos Hsome) as Hn. rewrite list_sum5 in Hn.
  pose proof (of_nat_pos Hk) as HK.
  pose proof (of_nat_nonneg a) as Ha. pose proof (of_nat_nonneg b) as Hb.
  pose proof (of_nat_nonneg c) as Hc. pose proof (of_nat_nonneg d) as Hd.
  pose proof (of_nat_nonneg e) as He.
  unfold scaled, original in *. cbn [map]. rewrite !counts5, !of_nat_mult.
  set (K := @of_nat R _ k) in *.
  set (A := @of_nat R _ a) in *. set (B := @of_nat R _ b) in *.
  set (C := @of_nat R _ c) in *. set (D := @of_nat R _ d) in *.
  set (E := @of_nat R _ e) in *.
  assert (Hmean : mean_stars [K * A; K * B; K * C; K * D; K * E]
                  = mean_stars [A; B; C; D; E]).
  { assert (Hscaled : K * A + K * B + K * C + K * D + K * E <> 0) by nra.
    rewrite (@mean_stars5 (K * A) (K * B) (K * C) (K * D) (K * E)) by exact Hscaled.
    rewrite (@mean_stars5 A B C D E) by lra.
    field. split; [lra | exact Hscaled]. }
  unfold meanStarRating, seStarRating, estimatedConfidencePercent, meanStarRating.
  rewrite !getMeanAndSE_mu, Hmean.
  split; [reflexivity | split; [reflexivity |]].
  set (m := mean_stars [A; B; C; D; E]) in *.
  destruct (Nat.eq_dec (a + b + c + d + e) 1) as [Hone | Hmore].
  - (* a single review: no spread before or after *)
    assert (Hz1 : se (getMeanAndSE [A; B; C; D; E]) = 0).
    { apply zero_spread.
      pose proof (@spread_of_single_review a b c d e 1 Hone Rlt_0_1) as Hs.
      cbv zeta in Hs. rewrite !Rmult_1_l in Hs. exact Hs. }
    assert (Hzk : se (getMeanAndSE [K * A; K * B; K * C; K * D; K * E]) = 0).
    { apply zero_spread.
      exact (@spread_of_single_review a b c d e K Hone HK). }
    rewrite Hz1, Hzk. lra.
  - assert (Htwo : (2 <= a + b + c + d + e)%nat).
    { cbn [list_sum fold_right] in Hsome. lia. }
    assert (Hn2 : 2 <= A + B + C + D + E).
    { apply of_nat_le in Htwo. rewrite !of_nat_plus in Htwo.
      change (@of_nat R _ 2) with 2 in Htwo. exact Htwo. }
    assert (HK1 : 1 <= K).
    { change 1 with (@of_nat R _ 1). apply of_nat_le. lia. }
    set (n := A + B + C + D + E) in *.
    assert (Hkn : K * A + K * B + K * C + K * D + K * E = K * n)
      by (unfold n; ring).
    rewrite (@se5 A B C D E) by (fold n; lra).
    rewrite (@se5 (K * A) (K * B) (K * C) (K * D) (K * E)) by (rewrite Hkn; nra).
    cbv zeta. rewrite Hmean, Hkn. fold n. fold m.
    assert (Hspread : spread (K * A) (K * B) (K * C) (K * D) (K * E) m
                      = K * spread A B C D E m) by (unfold spread; ring).
    rewrite Hspread.
    pose proof (@spread_nonneg A B C D E m Ha Hb Hc Hd He) as HQ.
    set (Q := spread A B C D E m) in *.
    assert (Hkn1 : n - 1 <= K * n - 1) by nra.
    rewrite <- !sqrt_div_alt by nra.
    apply sqrt_le_1_alt.
    replace (K * Q / (K * n - 1) / (K * n)) with (Q * / ((K * n - 1) * n))
      by (field; nra).
    replace (Q / (n - 1) / n) with (Q * / ((n - 1) * n)) by (field; nra).
    apply Rmult_le_compat_l; [exact HQ |].
    apply Rinv_le_contravar; nra.
Qed.

End Scaling.

(** ** Reading a number out of a text *)

Section TextToNum.
Import JSText.
Local Open Scope string_scope.

(** [after] does not continue a run of digits and commas. *)
Definition ends_run (after : string) : bool :=
  match after with
  | EmptyString => true
  | String c _ => negb (digit_or_comma c)
  end.

Lemma take_while_run (p : ascii -> bool) (run after : string) :
  all_chars p run = true ->
  match after with EmptyString => true | String c _ => negb (p c) end = true ->
  take_while p (run ++ after) = run.
Proof.
  intros Hrun Hafter.
  induction run as [| c run IH]; cbn [append take_while all_chars] in *.
  - destruct after as [| c after]; [reflexivity |].
    cbn [take_while]. apply negb_true_iff in Hafter. rewrite Hafter. reflexivity.
  - apply andb_true_iff in Hrun. destruct Hrun as [Hc Hrun].
    rewrite Hc, (IH Hrun). reflexivity.
Qed.

Lemma match_digits_commas_run (before run after : string) :
  all_chars (fun c => negb (digit_or_comma c)) before = true ->
  all_chars digit_or_comma run = true ->
  run <> "" ->
  ends_run after = true ->
  match_digits_commas (before ++ run ++ after) = Some run.
Proof.
  intros Hbefore Hrun Hne Hafter.
  induction before as [| c before IH]; cbn [append all_chars] in *.
  - destruct run as [| c run]; [contradiction |].
    cbn [append match_digits_commas].
    pose proof Hrun as Hrun'. cbn [all_chars] in Hrun'.
    apply andb_true_iff in Hrun'. destruct Hrun' as [Hc _].
    rewrite Hc. f_equal.
    apply (take_while_run digit_or_comma (String c run) after Hrun Hafter).
  - apply andb_true_iff in Hbefore. destruct Hbefore as [Hc Hbefore].
    apply negb_true_iff in Hc.
    cbn [match_digits_commas]. rewrite Hc. apply IH. exact Hbefore.
Qed.

Lemma match_digits_commas_none (text : string) :
  all_chars (fun c => negb (digit_or_comma c)) text = true ->
  match_digits_commas text = None.
Proof.
  induction text as [| c text IH]; cbn [all_chars match_digits_commas]; intros Hall.
  - reflexivity.
  - apply andb_true_iff in Hall. destruct Hall as [Hc Hall].
    apply negb_true_iff in Hc. rewrite Hc. apply IH. exact Hall.
Qed.

Lemma remove_commas_digits (run : string) :
  all_chars digit_or_comma run = true ->
  all_chars is_digit (remove_commas run) = true.
Proof.
  induction run as [| c run IH]; cbn [all_chars remove_commas]; intros Hall.
  - reflexivity.
  - apply andb_true_iff in Hall. destruct Hall as [Hc Hall].
    destruct (Ascii.eqb c ",") eqn:Hcomma.
    + apply IH. exact Hall.
    + cbn [all_chars]. unfold digit_or_comma in Hc.
      rewrite Hcomma, orb_false_r in Hc. rewrite Hc. apply IH. exact Hall.
Qed.

Lemma digit_is_plain (c : ascii) :
  is_digit c = true ->
  is_space c = false /\ Ascii.eqb c "-" = false /\ Ascii.eqb c "+" = false.
Proof.
  unfold is_digit, is_space. intros Hd.
  apply andb_true_iff in Hd. destruct Hd as [Hlo Hhi].
  apply Nat.leb_le in Hlo. apply Nat.leb_le in Hhi.
  repeat split.
  - apply orb_false_iff. split.
    + apply andb_false_iff. right. apply Nat.leb_gt. lia.
    + apply Nat.eqb_neq. lia.
  - apply Ascii.eqb_neq. intros ->. cbn in Hlo. lia.
  - apply Ascii.eqb_neq. intros ->. cbn in Hlo. lia.
Qed.

(** *** White space *)

Lemma white_space_at_space (c : ascii) (tail : string) :
  is_space c = true -> white_space_at (String c tail) = Some tail.
Proof. intros Hc. cbn [white_space_at]. rewrite Hc. reflexivity. Qed.

(** The white space beyond ASCII starts with a byte from 194 on. *)
Lemma white_space_at_plain (a : ascii) (tail : string) :
  is_space a = false -> (nat_of_ascii a < 194)%nat ->
  white_space_at (String a tail) = None.
Proof.
  intros Hspace Hlt. cbn [white_space_at]. rewrite Hspace.
  destruct tail as [| b [| c rest]]; try reflexivity;
    unfold is_space2, is_space3; cbv zeta;
    repeat match goal with
           | |- context [(nat_of_ascii a =? ?k)%nat] =>
               destruct (Nat.eqb_spec (nat_of_ascii a) k) as [Heq | _]; [lia |]
           end;
    reflexivity.
Qed.

Lemma white_space_at_digit (c : ascii) (tail : string) :
  is_digit c = true -> white_space_at (String c tail) = None.
Proof.
  intros Hd. pose proof (digit_is_plain c Hd) as (Hspace & _).
  apply white_space_at_plain; [exact Hspace |].
  unfold is_digit in Hd. apply andb_true_iff in Hd. destruct Hd as [_ Hhi].
  apply Nat.leb_le in Hhi. lia.
Qed.

Lemma white_space_at_chars (p : ascii -> bool) (s rest : string) :
  white_space_at s = Some rest -> all_chars p s = true -> all_chars p rest = true.
Proof.
  unfold white_space_at.
  destruct s as [| a [| b [| c s3]]]; cbn [all_chars];
    repeat match goal with
           | |- context [if ?b then _ else _] => destruct b
           end;
    intros Heq Hall; try discriminate Heq; injection Heq as <-;
    cbn [all_chars]; rewrite ?andb_true_iff in *; tauto.
Qed.

Lemma white_space_at_shorter (s rest : string) :
  white_space_at s = Some rest -> (String.length rest < String.length s)%nat.
Proof.
  unfold white_space_at.
  destruct s as [| a [| b [| c s3]]];
    repeat match goal with
           | |- context [if ?b then _ else _] => destruct b
           end;
    intros Heq; try discriminate Heq; injection Heq as <-;
    cbn [String.length]; lia.
Qed.

(** The steps allowed are enough: what is returned does not start with
    white space. *)
Lemma skip_white_space_done (s : string) :
  white_space_at (skip_white_space s) = None.
Proof.
  unfold skip_white_space.
  assert (Hgen : forall steps s', (String.length s' <= steps)%nat ->
                   white_space_at (skip_white_space_steps steps s') = None).
  { induction steps as [| steps IH]; intros s' Hlen; cbn [skip_white_space_steps].
    - destruct s' as [| a s']; [reflexivity | cbn [String.length] in Hlen; lia].
    - destruct (white_space_at s') as [rest |] eqn:Hw; [| exact Hw].
      apply IH. pose proof (white_space_at_shorter s' Hw). lia. }
  apply Hgen. lia.
Qed.

Lemma skip_white_space_none (s : string) :
  white_space_at s = None -> skip_white_space s = s.
Proof.
  intros Hnone. unfold skip_white_space.
  destruct (String.length s); cbn [skip_white_space_steps];
    [| rewrite Hnone]; reflexivity.
Qed.

Lemma skip_white_space_chars (p : ascii -> bool) (s : string) :
  all_chars p s = true -> all_chars p (skip_white_space s) = true.
Proof.
  unfold skip_white_space. generalize (String.length s). intros steps.
  revert s; induction steps as [| steps IH]; intros s Hall;
    cbn [skip_white_space_steps]; [exact Hall |].
  destruct (white_space_at s) as [rest |] eqn:Hw; [| exact Hall].
  apply IH. exact (white_space_at_chars p s Hw Hall).
Qed.

Lemma length_append (s t : string) :
  String.length (s ++ t) = (String.length s + String.length t)%nat.
Proof.
  induction s as [| c s IH]; cbn [append String.length]; [reflexivity |].
  rewrite IH. reflexivity.
Qed.

(** ASCII white space before something that is none is skipped. *)
Lemma skip_white_space_run (spaces rest : string) :
  all_chars is_space spaces = true -> white_space_at rest = None ->
  skip_white_space (spaces ++ rest) = rest.
Proof.
  intros Hspaces Hnone. unfold skip_white_space.
  assert (Hgen : forall steps, (String.length spaces <= steps)%nat ->
                   skip_white_space_steps steps (spaces ++ rest) = rest).
  { induction spaces as [| c spaces IH]; intros steps Hlen; cbn [append].
    - destruct steps; cbn [skip_white_space_steps]; [| rewrite Hnone]; reflexivity.
    - cbn [all_chars] in Hspaces. apply andb_true_iff in Hspaces.
      destruct Hspaces as [Hc Hspaces].
      destruct steps as [| steps]; [cbn [String.length] in Hlen; lia |].
      cbn [skip_white_space_steps].
      rewrite (white_space_at_space c (spaces ++ rest) Hc).
      apply IH; [exact Hspaces | cbn [String.length] in Hlen; lia]. }
  apply Hgen. rewrite length_append. lia.
Qed.

Lemma take_while_all (p : ascii -> bool) (s : string) :
  all_chars p s = true -> take_while p s = s.
Proof.
  induction s as [| c s IH]; cbn [all_chars take_while]; intros Hall.
  - reflexivity.
  - apply andb_true_iff in Hall. destruct Hall as [Hc Hall].
    rewrite Hc, (IH Hall). reflexivity.
Qed.

(** Rounding to binary64 leaves the integers below [2^53] as they are. *)
Lemma round_to_binary64_small (n : Z) :
  (0 <= n < 2 ^ 53)%Z -> round_to_binary64 n = n.
Proof.
  intros [Hlo Hhi]. unfold round_to_binary64.
  assert (Hlog : (Z.log2 n < 53)%Z).
  { destruct (Z.eq_dec n 0) as [-> | Hne]; [reflexivity |].
    apply Z.log2_lt_pow2; [lia | exact Hhi]. }
  destruct (Z.leb_spec (Z.log2 n - 52) 0) as [_ | Hgt]; [reflexivity | lia].
Qed.

Lemma round_half_even_nonneg (a b : Z) :
  (0 <= a)%Z -> (0 < b)%Z -> (0 <= round_half_even a b)%Z.
Proof.
  intros Ha Hb. unfold round_half_even.
  pose proof (Z.div_pos a b Ha Hb) as Hq.
  destruct ((b <? 2 * (a mod b))%Z || ((2 * (a mod b) =? b)%Z && Z.odd (a / b))); lia.
Qed.

Lemma round_to_binary64_nonneg (n : Z) :
  (0 <= n)%Z -> (0 <= round_to_binary64 n)%Z.
Proof.
  intros Hn. unfold round_to_binary64.
  destruct (Z.leb_spec (Z.log2 n - 52) 0) as [_ | Hgt]; [exact Hn |].
  assert (Hpow : (0 < 2 ^ (Z.log2 n - 52))%Z) by (apply Z.pow_pos_nonneg; lia).
  pose proof (round_half_even_nonneg Hn Hpow). nia.
Qed.

Lemma number_of_Z_small (n : Z) :
  (0 <= n < 2 ^ 53)%Z -> number_of_Z false n = Int n.
Proof.
  intros Hn. unfold number_of_Z. rewrite (round_to_binary64_small Hn).
  unfold overflows.
  assert (Hle : (2 ^ 53 <= 2 ^ 1024)%Z) by (apply Z.pow_le_mono_r; lia).
  destruct (Z.leb_spec (2 ^ 1024) n) as [Hbig | _]; [lia | reflexivity].
Qed.

Lemma number_of_Z_nonneg (n z : Z) :
  (0 <= n)%Z -> number_of_Z false n = Int z -> (0 <= z)%Z.
Proof.
  intros Hn. unfold number_of_Z.
  destruct (overflows (round_to_binary64 n)); [discriminate |].
  intros Heq. injection Heq as <-. apply round_to_binary64_nonneg. exact Hn.
Qed.

(** [parseInt] on a string of digits. *)
Lemma parseInt_digits (digits : string) :
  all_chars is_digit digits = true ->
  parseInt digits
  = match digits with
    | EmptyString => NaN
    | _ => number_of_Z false (digits_value 0 digits)
    end.
Proof.
  intros Hall. destruct digits as [| c digits]; [reflexivity |].
  pose proof Hall as Hall'. cbn [all_chars] in Hall'.
  apply andb_true_iff in Hall'. destruct Hall' as [Hc _].
  destruct (digit_is_plain c Hc) as (Hspace & Hminus & Hplus).
  unfold parseInt.
  rewrite (skip_white_space_none (String c digits) (white_space_at_digit c digits Hc)).
  rewrite Hminus, Hplus.
  rewrite (take_while_all is_digit (String c digits) Hall). reflexivity.
Qed.

Lemma digits_value_nonneg (digits : string) (acc : Z) :
  (0 <= acc)%Z -> (0 <= digits_value acc digits)%Z.
Proof.
  revert acc; induction digits as [| c digits IH]; intros acc Hacc;
    cbn [digits_value].
  - exact Hacc.
  - apply IH. unfold digit_value. lia.
Qed.

(** The scripts' reading of a digit string is the standard library's. *)
Lemma digits_value_of_uint (d : Decimal.uint) (acc : nat) :
  digits_value (Z.of_nat acc) (DecimalString.NilEmpty.string_of_uint d)
  = Z.of_nat (Nat.of_uint_acc d acc).
Proof.
  revert acc; induction d as [| d IH | d IH | d IH | d IH | d IH | d IH
                              | d IH | d IH | d IH | d IH]; intros acc;
    cbn [DecimalString.NilEmpty.string_of_uint digits_value Nat.of_uint_acc];
    try reflexivity;
    rewrite <- IH; f_equal; rewrite Nat.tail_mul_spec;
    match goal with
    | |- context [digit_value ?c] =>
        let v := eval vm_compute in (digit_value c) in
        change (digit_value c) with v
    end;
    lia.
Qed.

Lemma string_of_uint_empty (d : Decimal.uint) :
  DecimalString.NilEmpty.string_of_uint d = "" -> d = Decimal.Nil.
Proof. destruct d; cbn; intros Heq; try discriminate Heq; reflexivity. Qed.

Lemma append_nonempty (before run after : string) :
  run <> "" -> JS.truthy_string (Some (before ++ run ++ after)) = true.
Proof.
  intros Hne. cbn [JS.truthy_string].
  destruct before as [| c before]; cbn [append].
  - destruct run as [| c run]; [contradiction | reflexivity].
  - reflexivity.
Qed.

Lemma take_while_chars (p : ascii -> bool) (s : string) :
  all_chars p (take_while p s) = true.
Proof.
  induction s as [| c s IH]; cbn [take_while]; [reflexivity |].
  destruct (p c) eqn:Hc; cbn [all_chars]; [| reflexivity].
  rewrite Hc, IH. reflexivity.
Qed.

Lemma match_digits_commas_chars (text capture : string) :
  match_digits_commas text = Some capture ->
  all_chars digit_or_comma capture = true.
Proof.
  revert capture.
  induction text as [| c text IH]; intros capture Hmatch; [discriminate Hmatch |].
  change (match_digits_commas (String c text))
    with (if digit_or_comma c
          then Some (take_while digit_or_comma (String c text))
          else match_digits_commas text) in Hmatch.
  destruct (digit_or_comma c) eqn:Hc.
  - injection Hmatch as <-.
    exact (take_while_chars digit_or_comma (String c text)).
  - apply IH. exact Hmatch.
Qed.

(** X12.  A text with a number in it: nothing before the number looks like
    part of one, the number is written with digits and any commas, and what
    follows does not continue it.  [text_to_num] returns the binary64
    nearest to that number, the commas ignored: the number itself when it is
    below 2^53, as every count of reviews is. *)
Theorem text_to_num_reads_number (before run after : string) (d : Decimal.uint)
    (Hbefore : all_chars (fun c => negb (digit_or_comma c)) before = true)
    (Hrun : all_chars digit_or_comma run = true)
    (Hnumber : remove_commas run = DecimalString.NilEmpty.string_of_uint d)
    (Hd : d <> Decimal.Nil)
    (Hafter : ends_run after = true) :
  let n := Z.of_nat (Nat.of_uint d) in
  Part000.text_to_num (Some (before ++ run ++ after)) = number_of_Z false n /\
  ((n < 2 ^ 53)%Z ->
   Part000.text_to_num (Some (before ++ run ++ after)) = Int n).
Proof.
  intros n.
  assert (Hne : run <> "").
  { intros ->. cbn [remove_commas] in Hnumber.
    apply Hd. apply string_of_uint_empty. symmetry. exact Hnumber. }
  assert (Hread : Part000.text_to_num (Some (before ++ run ++ after))
                  = number_of_Z false n).
  { unfold Part000.text_to_num.
    rewrite (@append_nonempty before run after Hne). cbn [negb].
    rewrite (@match_digits_commas_run before run after Hbefore Hrun Hne Hafter).
    assert (Htruthy : JS.truthy_string (Some run) = true).
    { destruct run as [| c run]; [contradiction | reflexivity]. }
    rewrite Htruthy.
    rewrite (@parseInt_digits (remove_commas run) (@remove_commas_digits run Hrun)).
    rewrite Hnumber.
    destruct (DecimalString.NilEmpty.string_of_uint d) eqn:Hprinted.
    - exfalso. apply Hd. apply string_of_uint_empty. exact Hprinted.
    - rewrite <- Hprinted.
      change 0%Z with (Z.of_nat 0). rewrite digits_value_of_uint. reflexivity. }
  split; [exact Hread |].
  intros Hsmall. rewrite Hread. apply number_of_Z_small. unfold n in *. lia.
Qed.

Lemma text_to_num_witness :
  Part000.text_to_num (Some "About 1,687 reviews") = Int 1687.
Proof.
  assert (Hd : Nat.to_uint 1687 <> Decimal.Nil) by discriminate.
  apply (@text_to_num_reads_number "About " "1,687" " reviews" (Nat.to_uint 1687)
           eq_refl eq_refl eq_refl Hd eq_refl).
  reflexivity.
Defined.

(** X13. A text without a number: an absent, empty or digit-free text gives the
    sentinel 0, but a text whose first run of digits and commas consists of
    commas only gives NaN. *)
Theorem text_to_num_without_number :
  Part000.text_to_num None = Int 0 /\
  (forall text : string,
      all_chars (fun c => negb (digit_or_comma c)) text = true ->
      Part000.text_to_num (Some text) = Int 0) /\
  (forall before run after : string,
      all_chars (fun c => negb (digit_or_comma c)) before = true ->
      all_chars (fun c => Ascii.eqb c ",") run = true ->
      JS.truthy_string (Some run) = true ->
      ends_run after = true ->
      Part000.text_to_num (Some (before ++ run ++ after)) = NaN).
Proof.
  split; [reflexivity | split].
  - intros text Hall. unfold Part000.text_to_num.
    destruct (JS.truthy_string (Some text)); cbn [negb]; [| reflexivity].
    rewrite (@match_digits_commas_none text Hall). reflexivity.
  - intros before run after Hbefore Hcommas Htruthy Hafter.
    assert (Hne : run <> "").
    { intros ->. discriminate Htruthy. }
    assert (Hrun : all_chars digit_or_comma run = true).
    { clear - Hcommas. induction run as [| c run IH]; [reflexivity |].
      cbn [all_chars] in *. apply andb_true_iff in Hcommas.
      destruct Hcommas as [Hc Hcommas].
      unfold digit_or_comma. rewrite Hc, orb_true_r. apply IH. exact Hcommas. }
    assert (Hgone : remove_commas run = "").
    { clear - Hcommas. induction run as [| c run IH]; [reflexivity |].
      cbn [all_chars remove_commas] in *. apply andb_true_iff in Hcommas.
      destruct Hcommas as [Hc Hcommas]. rewrite Hc. apply IH. exact Hcommas. }
    unfold Part000.text_to_num.
    rewrite (@append_nonempty before run after Hne). cbn [negb].
    rewrite (@match_digits_commas_run before run after Hbefore Hrun Hne Hafter).
    rewrite Htruthy, Hgone. reflexivity.
Qed.

(** X14. Whatever the text, [text_to_num] never returns a negative number. *)
Theorem text_to_num_nonnegative (text : option string) (z : Z)
    (Hresult : Part000.text_to_num text = Int z) :
  (0 <= z)%Z.
Proof.
  unfold Part000.text_to_num in Hresult.
  destruct text as [text |]; [| injection Hresult as <-; lia].
  destruct (JS.truthy_string (Some text)); cbn [negb] in Hresult;
    [| injection Hresult as <-; lia].
  destruct (match_digits_commas text) as [capture |] eqn:Hmatch;
    [| injection Hresult as <-; lia].
  destruct (JS.truthy_string (Some capture));
    [| injection Hresult as <-; lia].
  pose proof (@match_digits_commas_chars text capture Hmatch) as Hchars.
  rewrite (@parseInt_digits (remove_commas capture)
             (@remove_commas_digits capture Hchars)) in Hresult.
  destruct (remove_commas capture) as [| c digits] eqn:Hdigits;
    [discriminate Hresult |].
  apply (@number_of_Z_nonneg (digits_value 0 (String c digits)) z);
    [| exact Hresult].
  apply digits_value_nonneg. lia.
Qed.

Lemma text_to_num_nonnegative_witness :
  Part000.text_to_num (Some "-42 below") = Int 42 /\ (0 <= 42)%Z.
Proof.
  split; [reflexivity |].
  apply (@text_to_num_nonnegative (Some "-42 below") 42). reflexivity.
Defined.

End TextToNum.

(** ** More on the resolver *)

Section ResolverMore.
Context {num : Type} `{Number num} `{JS.Runtime}.
Import ConfInt.
Local Open Scope string_scope.

Lemma keyword_loop_lowered (remaining : list string)
    (lowerCategory placeName placeName' : string)
    (selected : option (CategoryProfile num)) (name : string) :
  JS.toLowerCase placeName = JS.toLowerCase placeName' ->
  keyword_loop remaining lowerCategory placeName selected name
  = keyword_loop remaining lowerCategory placeName' selected name.
Proof.
  intros Hplace.
  induction remaining as [| key rest IH]; cbn [keyword_loop]; [reflexivity |].
  unfold key_matches. rewrite Hplace, IH. reflexivity.
Qed.

(** The browser's case mapping does not tell apart two ASCII texts that
    differ in the case of their letters only. *)
Lemma toLowerCase_same_letters (s t : string) :
  JS.is_ascii s = true -> same_letters s t ->
  JS.toLowerCase s = JS.toLowerCase t.
Proof.
  intros Hascii Hsame.
  rewrite (JS.toLowerCase_ascii s Hascii).
  rewrite (JS.toLowerCase_ascii t (same_letters_ascii s t Hsame Hascii)).
  apply same_letters_iff. exact Hsame.
Qed.

(** X15.  Matching does not look at the case of the letters: two ASCII
    category texts, and two ASCII place names, that differ at most in the
    case of their letters resolve to the same profile under the same key.
    That two texts differ in case only is said letter by letter, from the
    alphabet, not through the case mapping the resolver applies. *)
Theorem resolver_ignores_case (category category' placeName placeName' : string)
    (Hcategory_ascii : JS.is_ascii category = true)
    (Hplace_ascii : JS.is_ascii placeName = true)
    (Hcategory : same_letters category category')
    (Hplace : same_letters placeName placeName') :
  @selectedCategoryConfig num _ _ category placeName
  = selectedCategoryConfig category' placeName'.
Proof.
  unfold selectedCategoryConfig. cbv zeta.
  rewrite (toLowerCase_same_letters category category' Hcategory_ascii Hcategory).
  apply keyword_loop_lowered.
  apply toLowerCase_same_letters; assumption.
Qed.

(** No key of the table occurs within another one. *)
Lemma no_key_within_another (k k' : string) :
  In k (JS.keys (@categoryConfigs num _)) ->
  In k' (JS.keys (@categoryConfigs num _)) ->
  JS.includes (JS.ascii_toLowerCase k') (JS.ascii_toLowerCase k) = true ->
  k = k'.
Proof.
  rewrite categoryConfigs_keys.
  set (keys := ["Restaurant"; "Cafe"; "Store"; "Park"; "Hotel"; "Museum"; "Bank";
                "Hospital"; "School"; "Generic"]%list).
  assert (Hall :
    forallb
      (fun k' =>
         forallb
           (fun k =>
              implb (JS.includes (JS.ascii_toLowerCase k') (JS.ascii_toLowerCase k))
                    (String.eqb k k'))
           keys)
      keys = true) by (vm_compute; reflexivity).
  intros Hk Hk' Hinc.
  rewrite forallb_forall in Hall. specialize (Hall k' Hk').
  rewrite forallb_forall in Hall. specialize (Hall k Hk).
  rewrite Hinc in Hall. cbn [implb] in Hall.
  apply String.eqb_eq. exact Hall.
Qed.

Lemma get_of_entry (earlier later : JS.object (CategoryProfile num))
    (key : string) (cfg : CategoryProfile num) :
  categoryConfigs = (earlier ++ (key, cfg) :: later)%list ->
  JS.get (@categoryConfigs num _) key = Some cfg.
Proof.
  intros Htable. rewrite Htable. apply get_middle.
  pose proof (@categoryConfigs_NoDup num _) as Hnd.
  rewrite Htable in Hnd. unfold JS.keys in *.
  rewrite map_app in Hnd. cbn in Hnd.
  apply NoDup_remove_2 in Hnd.
  intros Hin. apply Hnd. apply in_or_app. left. exact Hin.
Qed.

(** X16.  No key of the table is shadowed by an earlier one: a category text
    that is exactly a key, with whatever place name in which no key occurs,
    resolves to that key and its own entry. *)
Theorem keys_resolve_to_themselves (key placeName : string)
    (Hkey : In key (JS.keys (@categoryConfigs num _)))
    (Hplace : Forall (fun k => JS.includes (JS.toLowerCase placeName)
                                           (JS.toLowerCase k) = false)
                     (JS.keys (@categoryConfigs num _))) :
  selectedCategoryConfig key placeName = (JS.get categoryConfigs key, key) /\
  exists cfg, JS.get (@categoryConfigs num _) key = Some cfg.
Proof.
  pose proof (@categoryConfigs_ascii num _) as Hascii.
  rewrite Forall_forall in Hascii, Hplace.
  assert (Hself : key_occurs key placeName key).
  { left. exists "", "". cbn [append].
    clear. induction (JS.toLowerCase key) as [| c s IH]; cbn [append];
      [reflexivity | rewrite <- IH; reflexivity]. }
  destruct (selectedCategoryConfig_spec (num := num) key placeName)
    as [(earlier & key' & cfg & later & Htable & _ & Hocc & Hr) | [Hnone _]].
  - assert (Hin : In key' (JS.keys (@categoryConfigs num _))).
    { rewrite Htable. unfold JS.keys. rewrite map_app. apply in_or_app.
      right. left. reflexivity. }
    assert (Heq : key' = key).
    { destruct Hocc as [Hcat | Hname].
      - apply no_key_within_another; try assumption.
        rewrite <- (JS.toLowerCase_ascii key (Hascii key Hkey)).
        rewrite <- (JS.toLowerCase_ascii key' (Hascii key' Hin)).
        apply includes_iff. exact Hcat.
      - apply includes_iff in Hname.
        rewrite (Hplace key' Hin) in Hname. discriminate Hname. }
    subst key'.
    rewrite (@get_of_entry earlier later key cfg Htable).
    split; [exact Hr | exists cfg; reflexivity].
  - exfalso.
    unfold JS.keys in Hkey. apply in_map_iff in Hkey.
    destruct Hkey as ([k cfg] & Hfst & Hin). cbn [fst] in Hfst. subst k.
    rewrite Forall_forall in Hnone.
    apply (Hnone (key, cfg) Hin). exact Hself.
Qed.

End ResolverMore.

Section ResolverWitnesses.
Local Open Scope string_scope.

Lemma resolver_ignores_case_witness :
  @ConfInt.selectedCategoryConfig R _ _ "COFFEE Shop" "Park CAFE"
  = ConfInt.selectedCategoryConfig "coffee shop" "park cafe".
Proof.
  apply (@resolver_ignores_case R _ _ "COFFEE Shop" "coffee shop" "Park CAFE" "park cafe");
    try reflexivity; apply same_letters_iff; reflexivity.
Defined.

Lemma keys_resolve_to_themselves_witness :
  @ConfInt.selectedCategoryConfig R _ _ "Museum" "Zed Gallery"
  = (JS.get ConfInt.categoryConfigs "Museum", "Museum").
Proof.
  apply (@keys_resolve_to_themselves R _ _ "Museum" "Zed Gallery").
  - cbn. tauto.
  - repeat (constructor; [reflexivity |]). constructor.
Defined.

End ResolverWitnesses.

(** ** Concrete inputs for the further properties *)

Section FurtherInstances.
Local Open Scope string_scope.

(** The bar widths of a page with 1,687 reviews. *)
Definition sample_widths : list R := [73; 15; 5; 2; 5].

Lemma sample_widths_nonneg : Forall (fun p => 0 <= p) sample_widths.
Proof. unfold sample_widths. repeat (constructor; [lra |]). constructor. Qed.

Lemma sample_widths_sum : 0 < Part000.sumArray sample_widths.
Proof. unfold sample_widths. rewrite sumArray5. lra. Qed.

Lemma estimate_starCounts_accuracy_witness :
  exists starCounts : list nat,
    Part000.estimate_starCounts (of_nat 1687) sample_widths = counts starCounts /\
    (1687 <= list_sum starCounts + 2)%nat /\
    (list_sum starCounts <= 1687 + 2)%nat.
Proof.
  assert (Hcount : (0 < 1687)%nat) by lia.
  assert (Hfive : List.length sample_widths = 5%nat) by reflexivity.
  destruct (@estimate_starCounts_accuracy 1687 sample_widths Hcount Hfive
              sample_widths_nonneg sample_widths_sum)
    as (ks & Heq & _ & _ & Hlow & Hhigh).
  exists ks. auto.
Defined.

Lemma extracted_without_distribution_witness :
  Part000.checkConfidence
    (Some (Part000.extractGoogleMapsReviewData (Some "Cafe X") None "Cafe" sample_widths))
  = Part000.NotEnoughData.
Proof.
  apply (@extracted_without_distribution "Cafe X" "Cafe" None sample_widths).
  - discriminate.
  - left. reflexivity.
Defined.

Lemma extracted_with_distribution_witness :
  exists r,
    Part000.checkConfidence
      (Some (Part000.extractGoogleMapsReviewData (Some "Cafe X") (Some (of_nat 1687))
               "Cafe" sample_widths))
    = Part000.Result r /\
    Part000.shown_lower r <= Part000.shown_confidence r /\
    Part000.shown_confidence r <= Part000.shown_upper r.
Proof.
  assert (Hname : "Cafe X" <> "") by discriminate.
  assert (Hcount : (3 <= 1687)%nat) by lia.
  assert (Hfive : List.length sample_widths = 5%nat) by reflexivity.
  destruct (@extracted_with_distribution "Cafe X" "Cafe" 1687 sample_widths
              Hname Hcount Hfive sample_widths_nonneg sample_widths_sum)
    as (r & Hr & _ & Hlo & Hhi & _).
  exists r. auto.
Defined.

Lemma place_without_review_count_witness :
  exists r,
    ConfInt.checkConfidence
      (Some (ConfInt.extractGoogleMapsPlaceData (Some "Cafe X") None "Cafe"))
    = ConfInt.Result r /\
    ConfInt.shown_confidence r = 0.
Proof.
  assert (Hname : "Cafe X" <> "") by discriminate.
  destruct (@place_without_review_count JS.ASCII_only "Cafe X" "Cafe" Hname)
    as (cfg & key & r & _ & Hr & _ & _ & Hzero & _).
  exists r. auto.
Defined.

Lemma colour_by_category_witness :
  ConfInt.getConfidenceColor
    (ConfInt.mu_confidence_score
       {| ConfInt.maxReviews := lit 300; ConfInt.weight := lit 0.30;
          ConfInt.baseUncertaintyFactor := lit 0.70 |} (@of_nat R _ 5000))
  = "#e53e3e".
Proof.
  destruct (@colour_by_category JS.ASCII_only "Financial institution" "First National Bank" "Bank"
              {| ConfInt.maxReviews := lit 300; ConfInt.weight := lit 0.30;
                 ConfInt.baseUncertaintyFactor := lit 0.70 |} 5000 eq_refl)
    as (Hred & _).
  apply Hred. cbn. tauto.
Defined.

Lemma unanimous_ratings_witness :
  Part000.estimatedConfidencePercent (counts (unanimous 0 10)) = 25 * (4 - INR 0).
Proof.
  assert (Hi : (0 < 5)%nat) by lia.
  assert (Hc : (0 < 10)%nat) by lia.
  destruct (@unanimous_ratings 0 10 Hi Hc) as (_ & _ & _ & Hpoint & _).
  exact Hpoint.
Defined.

Lemma more_reviews_same_distribution_witness :
  Part000.seStarRating (counts (map (Nat.mul 3) [5; 5; 0; 0; 0]%nat))
  <= Part000.seStarRating (counts [5; 5; 0; 0; 0]%nat).
Proof.
  assert (Hfive : List.length [5; 5; 0; 0; 0]%nat = 5%nat) by reflexivity.
  assert (Hsome : (0 < list_sum [5; 5; 0; 0; 0])%nat) by (cbn; lia).
  assert (Hk : (0 < 3)%nat) by lia.
  destruct (@more_reviews_same_distribution [5; 5; 0; 0; 0]%nat 3 Hfive Hsome Hk)
    as (_ & _ & Hse).
  exact Hse.
Defined.

End FurtherInstances.

(** ** Reading a percentage out of a style attribute *)

Section Percents.
Import JSText.
Local Open Scope string_scope.

Lemma drop_while_run (p : ascii -> bool) (run rest : string) :
  all_chars p run = true ->
  match rest with EmptyString => true | String c _ => negb (p c) end = true ->
  drop_while p (run ++ rest) = rest.
Proof.
  intros Hrun Hrest.
  induction run as [| c run IH]; cbn [append drop_while all_chars] in *.
  - destruct rest as [| c rest]; [reflexivity |].
    cbn [drop_while]. apply negb_true_iff in Hrest. rewrite Hrest. reflexivity.
  - apply andb_true_iff in Hrun. destruct Hrun as [Hc Hrun].
    rewrite Hc. apply IH. exact Hrun.
Qed.

Lemma append_empty (s : string) : s ++ "" = s.
Proof.
  induction s as [| c s IH]; cbn [append]; [reflexivity |].
  rewrite IH. reflexivity.
Qed.

Lemma drop_while_all (p : ascii -> bool) (s : string) :
  all_chars p s = true -> drop_while p s = "".
Proof.
  induction s as [| c s IH]; cbn [all_chars drop_while]; [reflexivity |].
  intros Hall. apply andb_true_iff in Hall. destruct Hall as [Hc Hall].
  rewrite Hc. apply IH. exact Hall.
Qed.

Lemma string_of_uint_digits (d : Decimal.uint) :
  all_chars is_digit (DecimalString.NilEmpty.string_of_uint d) = true.
Proof.
  induction d; cbn [DecimalString.NilEmpty.string_of_uint all_chars];
    try reflexivity; rewrite IHd; reflexivity.
Qed.

Lemma digits_are_digit_or_dot (s : string) :
  all_chars is_digit s = true -> all_chars digit_or_dot s = true.
Proof.
  induction s as [| c s IH]; cbn [all_chars]; [reflexivity |].
  intros Hall. apply andb_true_iff in Hall. destruct Hall as [Hc Hall].
  rewrite (IH Hall). unfold digit_or_dot. rewrite Hc. reflexivity.
Qed.

Lemma all_chars_drop_while (p q : ascii -> bool) (s : string) :
  all_chars p s = true -> all_chars p (drop_while q s) = true.
Proof.
  induction s as [| c s IH]; cbn [all_chars drop_while]; [reflexivity |].
  intros Hall. destruct (q c).
  - apply andb_true_iff in Hall. apply IH. apply Hall.
  - exact Hall.
Qed.

Lemma all_chars_strip_prefix (p : ascii -> bool) (prefix s rest : string) :
  all_chars p s = true -> strip_prefix prefix s = Some rest ->
  all_chars p rest = true.
Proof.
  revert s; induction prefix as [| a prefix IH]; intros s Hall Hstrip;
    cbn [strip_prefix] in Hstrip.
  - injection Hstrip as <-. exact Hall.
  - destruct s as [| c s]; [discriminate Hstrip |].
    destruct (Ascii.eqb a c); [| discriminate Hstrip].
    cbn [all_chars] in Hall. apply andb_true_iff in Hall.
    apply (IH s); [apply Hall | exact Hstrip].
Qed.

Lemma width_at_needs_percent (s : string) :
  all_chars (fun c => negb (Ascii.eqb c "%")) s = true -> width_at s = None.
Proof.
  intros Hall. unfold width_at.
  destruct (strip_prefix "width:" s) as [rest |] eqn:Hstrip; [| reflexivity].
  pose proof (all_chars_strip_prefix _ "width:" s Hall Hstrip) as Hrest.
  pose proof (skip_white_space_chars _ rest Hrest) as H1.
  pose proof (all_chars_drop_while _ digit_or_dot _ H1) as H2.
  cbv zeta.
  destruct (take_while digit_or_dot (skip_white_space rest)); [reflexivity |].
  destruct (drop_while digit_or_dot (skip_white_space rest)) as [| c tail];
    [reflexivity |].
  cbn [all_chars] in H2. apply andb_true_iff in H2. destruct H2 as [Hc _].
  apply negb_true_iff in Hc. rewrite Hc. reflexivity.
Qed.

Lemma match_width_needs_percent (s : string) :
  all_chars (fun c => negb (Ascii.eqb c "%")) s = true -> match_width s = None.
Proof.
  induction s as [| c s IH]; intros Hall; [reflexivity |].
  cbn [match_width]. rewrite (width_at_needs_percent (String c s) Hall).
  apply IH. cbn [all_chars] in Hall. apply andb_true_iff in Hall. apply Hall.
Qed.

Lemma Qred_whole (n : Z) : Qred (n # 1) = n # 1.
Proof.
  unfold Qred.
  pose proof (Z.ggcd_gcd n 1) as Hg.
  pose proof (Z.ggcd_correct_divisors n 1) as Hd.
  destruct (Z.ggcd n 1) as [g [aa bb]].
  cbn [fst snd] in *. rewrite Z.gcd_1_r in Hg. subst g.
  destruct Hd as [Ha Hb].
  assert (Hn : aa = n) by lia. assert (Hbb : bb = 1%Z) by lia.
  rewrite Hn, Hbb. reflexivity.
Qed.

Lemma Qred_scaled (n : Z) (p : positive) : Qred ((n * Zpos p) # p) = n # 1.
Proof.
  rewrite <- (Qred_whole n).
  apply Qred_complete. unfold Qeq. cbn [Qnum Qden]. lia.
Qed.

Lemma round_half_even_whole (a : Z) : round_half_even a 1 = a.
Proof.
  unfold round_half_even. rewrite Z.div_1_r, Z.mod_1_r. reflexivity.
Qed.

Lemma nearest_binary64_nonneg (n : Z) (d : positive) (q : Q) :
  (0 <= n)%Z -> nearest_binary64 n d = Dec q -> (0 <= q)%Q.
Proof.
  intros Hn. unfold nearest_binary64.
  destruct (n =? 0)%Z; [intros Heq; injection Heq as <-; apply Qle_refl |].
  cbv zeta.
  match goal with
  | |- context [Z.max ?a ?b] => generalize (Z.max a b)
  end.
  intros u.
  destruct (Z.leb_spec 0 u) as [Hu | Hu].
  - assert (Hpow : (0 < 2 ^ u)%Z) by (apply Z.pow_pos_nonneg; lia).
    assert (Hden : (0 < Zpos d * 2 ^ u)%Z) by nia.
    pose proof (round_half_even_nonneg Hn Hden) as Hm.
    revert Hm. generalize (round_half_even n (Zpos d * 2 ^ u)). intros m Hm.
    destruct (overflows _); [discriminate |].
    intros Heq. injection Heq as <-.
    unfold Qle. cbn [Qnum Qden]. nia.
  - assert (Hpow : (0 < 2 ^ (- u))%Z) by (apply Z.pow_pos_nonneg; lia).
    assert (Hnum : (0 <= n * 2 ^ (- u))%Z) by nia.
    assert (Hden : (0 < Zpos d)%Z) by lia.
    pose proof (round_half_even_nonneg Hnum Hden) as Hm.
    revert Hm. generalize (round_half_even (n * 2 ^ (- u)) (Zpos d)). intros m Hm.
    generalize (Z.to_pos (2 ^ (- u))). intros p.
    pose proof (Qred_correct (m # p)) as Hr.
    revert Hr. generalize (Qred (m # p)). intros r Hr Heq.
    injection Heq as <-. rewrite Hr.
    unfold Qle. cbn [Qnum Qden]. lia.
Qed.

(** A whole number below [2^53] is a binary64 and is returned as it is. *)
Lemma nearest_binary64_whole (n : Z) :
  (0 <= n < 2 ^ 53)%Z -> nearest_binary64 n 1 = Dec (n # 1).
Proof.
  intros [Hlo Hhi]. unfold nearest_binary64.
  destruct (Z.eqb_spec n 0) as [-> | Hne]; [reflexivity |].
  assert (Hpos : (0 < n)%Z) by lia.
  pose proof (Z.log2_spec n Hpos) as [Hl _].
  pose proof (Z.log2_nonneg n) as Hl0.
  assert (Hl53 : (Z.log2 n < 53)%Z) by (apply Z.log2_lt_pow2; lia).
  change (Z.log2 1) with 0%Z. rewrite Z.sub_0_r.
  set (L := Z.log2 n) in *.
  cbv zeta.
  destruct (Z.leb_spec 0 L) as [_ | Hbad]; [| lia].
  destruct (Z.leb_spec (1 * 2 ^ L) n) as [_ | Hbad]; [| lia].
  rewrite Z.max_l by lia.
  destruct (Z.leb_spec 0 (L - 52)) as [Hu | Hu].
  - assert (HL : (L - 52 = 0)%Z) by lia.
    rewrite HL, Z.pow_0_r, !Z.mul_1_r, round_half_even_whole.
    unfold overflows.
    assert (Hle : (2 ^ 53 <= 2 ^ 1024)%Z) by (apply Z.pow_le_mono_r; lia).
    destruct (Z.leb_spec (2 ^ 1024) n) as [Hbig | _]; [lia | reflexivity].
  - rewrite round_half_even_whole.
    assert (Hpow : (0 < 2 ^ (- (L - 52)))%Z) by (apply Z.pow_pos_nonneg; lia).
    rewrite <- (Z2Pos.id (2 ^ (- (L - 52))) Hpow) at 1.
    rewrite Qred_scaled. reflexivity.
Qed.

Lemma parseFloat_nonneg (s : string) (q : Q) :
  parseFloat s = Dec q -> (0 <= q)%Q.
Proof.
  unfold parseFloat. cbv zeta.
  destruct (take_while is_digit s ++ _) as [| c digits]; [discriminate |].
  apply nearest_binary64_nonneg.
  apply digits_value_nonneg. lia.
Qed.

(** X17.  A style attribute that starts with a width in percent, written as
    a whole number: [percents_to_real_percents] returns the binary64 nearest
    to that number, which below 2^53 is the number itself.  White space
    after the colon and whatever follows the percent sign do not matter. *)
Theorem percents_reads_width (spaces after : string) (d : Decimal.uint)
    (Hspaces : all_chars is_space spaces = true)
    (Hd : d <> Decimal.Nil) :
  let n := Z.of_nat (Nat.of_uint d) in
  let styleText :=
    "width:" ++ spaces ++ DecimalString.NilEmpty.string_of_uint d ++ "%" ++ after in
  Part000.percents_to_real_percents (Some styleText) = nearest_binary64 n 1 /\
  ((n < 2 ^ 53)%Z ->
   Part000.percents_to_real_percents (Some styleText) = Dec (n # 1)).
Proof.
  intros n styleText.
  assert (Hread : Part000.percents_to_real_percents (Some styleText)
                  = nearest_binary64 n 1).
  { unfold styleText, n.
    set (digits := DecimalString.NilEmpty.string_of_uint d).
    assert (Hdigits : all_chars is_digit digits = true) by apply string_of_uint_digits.
    assert (Hne : exists c tail, digits = String c tail).
    { destruct digits as [| c tail] eqn:Hprinted.
      - exfalso. apply Hd. apply string_of_uint_empty. exact Hprinted.
      - exists c, tail. reflexivity. }
    destruct Hne as (c & tail & Hshape).
    assert (Hc : is_digit c = true).
    { rewrite Hshape in Hdigits. cbn [all_chars] in Hdigits.
      apply andb_true_iff in Hdigits. apply Hdigits. }
    destruct (digit_is_plain c Hc) as (Hnospace & _ & _).
    assert (Hwidth : width_at ("width:" ++ spaces ++ digits ++ "%" ++ after)
                     = Some digits).
    { unfold width_at.
      change (strip_prefix "width:" ("width:" ++ spaces ++ digits ++ "%" ++ after))
        with (Some (spaces ++ digits ++ "%" ++ after)).
      cbv beta iota zeta.
      rewrite (skip_white_space_run spaces (digits ++ "%" ++ after) Hspaces)
        by (rewrite Hshape; cbn [append]; apply white_space_at_digit; exact Hc).
      rewrite (take_while_run digit_or_dot digits ("%" ++ after)
                 (digits_are_digit_or_dot digits Hdigits) eq_refl).
      rewrite (drop_while_run digit_or_dot digits ("%" ++ after)
                 (digits_are_digit_or_dot digits Hdigits) eq_refl).
      rewrite Hshape. reflexivity. }
    set (text := "width:" ++ spaces ++ digits ++ "%" ++ after) in *.
    assert (Hmatch : match_width text = Some digits).
    { change text with (String "w" ("idth:" ++ spaces ++ digits ++ "%" ++ after)).
      cbn [match_width].
      change (String "w" ("idth:" ++ spaces ++ digits ++ "%" ++ after)) with text.
      rewrite Hwidth. reflexivity. }
    assert (Htext : JS.truthy_string (Some text) = true) by reflexivity.
    unfold Part000.percents_to_real_percents.
    rewrite Htext. cbn [negb].
    rewrite Hmatch.
    assert (Htruthy : JS.truthy_string (Some digits) = true)
      by (rewrite Hshape; reflexivity).
    rewrite Htruthy.
    unfold parseFloat. cbv zeta.
    rewrite (take_while_all is_digit digits Hdigits).
    assert (Hdrop : drop_while is_digit digits = "")
      by (apply drop_while_all; exact Hdigits).
    rewrite Hdrop. rewrite append_empty.
    rewrite Hshape. rewrite <- Hshape.
    cbn [String.length pow10]. unfold digits.
    change (digits_value 0) with (digits_value (Z.of_nat 0)).
    rewrite digits_value_of_uint. reflexivity. }
  split; [exact Hread |].
  intros Hsmall. rewrite Hread. apply nearest_binary64_whole. unfold n in *. lia.
Qed.

Lemma percents_reads_width_witness :
  Part000.percents_to_real_percents (Some "width: 73%;") = Dec 73.
Proof.
  assert (Hd : Nat.to_uint 73 <> Decimal.Nil) by discriminate.
  apply (@percents_reads_width " " ";" (Nat.to_uint 73) eq_refl Hd).
  reflexivity.
Defined.

(** X18. Without a width in percent: an absent style, or one in which no
    percent sign occurs (a width in pixels, say), reads as 0; and whatever
    the style, the number read is never negative, which is what the
    estimation of the star counts presupposes of the bar widths. *)
Theorem percents_without_width :
  Part000.percents_to_real_percents None = Dec 0 /\
  (forall styleText : string,
      all_chars (fun c => negb (Ascii.eqb c "%")) styleText = true ->
      Part000.percents_to_real_percents (Some styleText) = Dec 0) /\
  (forall (styleText : option string) (q : Q),
      Part000.percents_to_real_percents styleText = Dec q -> (0 <= q)%Q).
Proof.
  split; [reflexivity | split].
  - intros styleText Hall. unfold Part000.percents_to_real_percents.
    destruct (JS.truthy_string (Some styleText)); cbn [negb]; [| reflexivity].
    rewrite (match_width_needs_percent styleText Hall). reflexivity.
  - intros styleText q. unfold Part000.percents_to_real_percents.
    assert (Hzero : forall q', Dec 0 = Dec q' -> (0 <= q')%Q).
    { intros q' Heq. injection Heq as <-. apply Qle_refl. }
    destruct styleText as [styleText |]; [| apply Hzero].
    destruct (JS.truthy_string (Some styleText)); cbn [negb]; [| apply Hzero].
    destruct (match_width styleText) as [capture |]; [| apply Hzero].
    destruct (JS.truthy_string (Some capture)); [| apply Hzero].
    apply parseFloat_nonneg.
Qed.

End Percents.

(** ** The content script's figures in binary64 *)

Section Binary64Further.
Local Open Scope string_scope.

(** 1,687 reviews behind bars of 73, 15, 5, 2 and 5 percent. *)
Example estimated_counts_1687 :
  @Part000.estimate_starCounts float _ _ (of_Z 1687) (map of_Z [73; 15; 5; 2; 5]%Z)
  = map of_Z [1232; 253; 84; 34; 84]%Z.
Proof. vm_compute. reflexivity. Qed.

(** Bars given relative to the longest one are normalised by their sum. *)
Example estimated_counts_relative :
  @Part000.estimate_starCounts float _ _ (of_Z 10) (map of_Z [100; 50; 50; 0; 0]%Z)
  = map of_Z [5; 3; 3; 0; 0]%Z.
Proof. vm_compute. reflexivity. Qed.

Example rounding_ties_go_up :
  map (@Math_round float _) [lit 0.5; lit 1.5; lit 2.5; lit 2.4; PrimFloat.opp (lit 1.5)]
  = [lit 1; lit 2; lit 3; lit 2; PrimFloat.opp (lit 1)].
Proof. vm_compute. reflexivity. Qed.

Example extracted_1687 :
  match Part000.checkConfidence
          (Some (@Part000.extractGoogleMapsReviewData float _ _
                   (Some "Cafe X") (Some (of_Z 1687)) "Cafe"
                   (map of_Z [73; 15; 5; 2; 5]%Z))) with
  | Part000.Result r =>
      within 4.48 4.50 (Part000.shown_mean r)
      && within 87.2 87.3 (Part000.shown_confidence r)
      && String.eqb (Part000.getConfidenceColor (Part000.shown_confidence r)) "#38a169"
  | _ => false
  end = true.
Proof. vm_compute. reflexivity. Qed.

Example text_to_num_examples :
  map Part000.text_to_num
    [Some "1,687 reviews"; Some "(23)"; Some "no reviews"; Some ", and 5"; None]
  = [JSText.Int 1687; JSText.Int 23; JSText.Int 0; JSText.NaN; JSText.Int 0].
Proof. reflexivity. Qed.

Example percents_examples :
  map Part000.percents_to_real_percents
    [Some "width: 73%;"; Some "width:12.5%"; Some "max-width: 10px; width: 7%";
     Some "width: .%"; Some "width: 73px"; None]
  = [JSText.Dec 73; JSText.Dec (25 # 2); JSText.Dec 7; JSText.NaNd; JSText.Dec 0;
     JSText.Dec 0].
Proof. vm_compute. reflexivity. Qed.

(** Beyond 2^53 the number read is the nearest binary64, not the number
    written. *)
Example reading_beyond_2_53 :
  Part000.text_to_num (Some "9007199254740993 reviews")
  = JSText.Int 9007199254740992 /\
  Part000.percents_to_real_percents (Some "width: 12345678901234567890123%")
  = JSText.Dec 12345678901234567741440.
Proof. vm_compute. split; reflexivity. Qed.

(** White space beyond ASCII counts as white space: a no-break space (U+00A0)
    or a line separator (U+2028) after the colon is skipped like a blank. *)
Example reading_after_no_break_space :
  Part000.percents_to_real_percents
    (Some ("width:" ++ String (ascii_of_nat 194) (String (ascii_of_nat 160) "73%")))
  = JSText.Dec 73 /\
  Part000.percents_to_real_percents
    (Some ("width: " ++ String (ascii_of_nat 226) (String (ascii_of_nat 128)
                          (String (ascii_of_nat 168) " 5%"))))
  = JSText.Dec 5 /\
  Part000.percents_to_real_percents
    (Some ("width:" ++ String (ascii_of_nat 226) (String (ascii_of_nat 132)
                         (String (ascii_of_nat 170) "73%"))))
  = JSText.Dec 0.
Proof. vm_compute. repeat split; reflexivity. Qed.

(** A width with a fraction is read as the nearest binary64 as well: 12.5 is
    one, 0.1 is not. *)
Example reading_fractions :
  Part000.percents_to_real_percents (Some "width: 0.1%")
  = JSText.Dec (3602879701896397 # 36028797018963968).
Proof. vm_compute. reflexivity. Qed.

End Binary64Further.
